(** * Rank / popularity analysis scripts: a shallow embedding

    The development follows the Python sources file by file:
    - [Py]        the fragments of the Python runtime the scripts rely on
                  (strings, [sorted], [enumerate], [datetime.strptime],
                  JSON values, exceptions);
    - [S3]        [s3.py]: archive iteration, the Spotify/YouTube matcher and
                  the rank tables;
    - [S1]        [s1.py]: [load_youtube_from_zip];
    - [A5Collect] [a5_collect.py]: [search_video_ids] and [save_dataset];
    - [A5Analyze] [a5_analyze.py]: [load_view_counts] and the sorted series;
    - [A5Fetch]   [a5_collect.py]: [fetch_video_details] and [main].

    Text is modelled over 8-bit characters: the case mapping, the white-space
    class and the digit class are those Python applies to ASCII text. *)

From Stdlib Require Import ZArith Ascii String List Permutation Sorted Lia Bool.
From stdpp Require Import base option list gmap strings sorting.

Set Warnings "-register-all,-abstract-large-number,-clear-no-such-hyp".

Local Open Scope string_scope.
Local Open Scope list_scope.

(** ** Python runtime fragments *)
Module Py.

(** *** Exceptions and the result monad *)

Inductive exn : Type :=
| FileNotFoundError
| TypeError
| ValueError
| KeyError
| AttributeError.

Inductive result (A : Type) : Type :=
| Ok (a : A)
| Raise (e : exn).
Arguments Ok {A} a.
Arguments Raise {A} e.

#[global] Instance result_ret : MRet result := @Ok.
#[global] Instance result_bind : MBind result := fun A B k r =>
  match r with
  | Ok a => k a
  | Raise e => Raise e
  end.

(** [for x in l: f x], collecting the values, stopping at the first raise. *)
Fixpoint mapM {A B} (f : A -> result B) (l : list A) : result (list B) :=
  match l with
  | [] => Ok []
  | a :: l' => b ← f a; bs ← mapM f l'; Ok (b :: bs)
  end.

Definition is_ok {A} (r : result A) : bool :=
  match r with Ok _ => true | Raise _ => false end.

(** *** Strings *)

Definition code (c : ascii) : nat := nat_of_ascii c.

Definition is_upper (c : ascii) : bool := (65 <=? code c)%nat && (code c <=? 90)%nat.
Definition is_digit (c : ascii) : bool := (48 <=? code c)%nat && (code c <=? 57)%nat.

(** The characters [str.strip()] removes: TAB, LF, VT, FF, CR, the four
    separators 0x1c-0x1f and the space. *)
Definition is_space (c : ascii) : bool :=
  ((9 <=? code c)%nat && (code c <=? 13)%nat)
  || ((28 <=? code c)%nat && (code c <=? 32)%nat).

Definition lower_char (c : ascii) : ascii :=
  if is_upper c then ascii_of_nat (code c + 32) else c.

(** [s.lower()] *)
Fixpoint lower (s : string) : string :=
  match s with
  | EmptyString => EmptyString
  | String c s' => String (lower_char c) (lower s')
  end.

Fixpoint lstrip (s : string) : string :=
  match s with
  | EmptyString => EmptyString
  | String c s' => if is_space c then lstrip s' else s
  end.

Fixpoint rstrip (s : string) : string :=
  match s with
  | EmptyString => EmptyString
  | String c s' =>
      match rstrip s' with
      | EmptyString => if is_space c then EmptyString else String c EmptyString
      | r => String c r
      end
  end.

(** [s.strip()] *)
Definition strip (s : string) : string := rstrip (lstrip s).

(** [s.startswith(p)] *)
Fixpoint startswith (s p : string) : bool :=
  match p, s with
  | EmptyString, _ => true
  | String _ _, EmptyString => false
  | String a p', String b s' => Ascii.eqb a b && startswith s' p'
  end.

(** [sub in s]: [sub] occurs in [s] as a contiguous substring. *)
Fixpoint str_in (sub s : string) : bool :=
  startswith s sub ||
  match s with
  | EmptyString => false
  | String _ s' => str_in sub s'
  end.

(** [s.endswith(suf)] *)
Fixpoint endswith (s suf : string) : bool :=
  String.eqb s suf ||
  match s with
  | EmptyString => false
  | String _ s' => endswith s' suf
  end.

(** [s.split(sep)] for a one-character separator: the pieces between the
    occurrences of [sep]; never empty. *)
Fixpoint split (sep : ascii) (s : string) : list string :=
  match s with
  | EmptyString => [EmptyString]
  | String c s' =>
      if Ascii.eqb c sep then EmptyString :: split sep s'
      else match split sep s' with
           | [] => [String c EmptyString]
           | p :: ps => String c p :: ps
           end
  end.

(** [s.split(sep)[0]] *)
Definition split_head (sep : ascii) (s : string) : string :=
  hd EmptyString (split sep s).

(** [os.path.basename(p)]: what follows the last slash. *)
Fixpoint basename (p : string) : string :=
  match p with
  | EmptyString => EmptyString
  | String c p' =>
      if str_in "/" p' then basename p'
      else if Ascii.eqb c "/" then p' else p
  end.

(** [s.isdigit()] *)
Fixpoint all_digits (s : string) : bool :=
  match s with
  | EmptyString => true
  | String c s' => is_digit c && all_digits s'
  end.

Definition isdigit (s : string) : bool :=
  match s with
  | EmptyString => false
  | _ => all_digits s
  end.

(** [sep.join(l)] *)
Fixpoint join (sep : string) (l : list string) : string :=
  match l with
  | [] => EmptyString
  | [s] => s
  | s :: l' => s ++ sep ++ join sep l'
  end.

(** [a < b] on strings: lexicographic on character codes. *)
Fixpoint str_ltb (a b : string) : bool :=
  match a, b with
  | _, EmptyString => false
  | EmptyString, String _ _ => true
  | String x a', String y b' =>
      (code x <? code y)%nat || ((code x =? code y)%nat && str_ltb a' b')
  end.

(** *** [sorted] and [enumerate] *)

(** [list.sort] compares with [<] only and is stable.  [sorted lt l] inserts
    the elements from the right: an element is placed after those of the
    already sorted tail that are strictly before it, so that elements that do
    not compare strictly keep their input order. *)
Fixpoint insert_sorted {A} (lt : A -> A -> bool) (x : A) (l : list A) : list A :=
  match l with
  | [] => [x]
  | y :: l' => if lt y x then y :: insert_sorted lt x l' else x :: l
  end.

Definition sorted {A} (lt : A -> A -> bool) (l : list A) : list A :=
  foldr (insert_sorted lt) [] l.

(** [after lt a b]: [b] may follow [a] in a sorted list, that is [b] is not
    strictly before [a]. *)
Definition after {A} (lt : A -> A -> bool) (a b : A) : Prop := lt b a = false.

(** [sorted(l, key=key, reverse=True)] on integer keys: the comparison is
    reversed and ties keep their input order. *)
Definition sorted_key_desc {A} (key : A -> Z) (l : list A) : list A :=
  sorted (fun a b => (key b <? key a)%Z) l.

(** [enumerate(l, start=n)] *)
Fixpoint enumerate {A} (n : nat) (l : list A) : list (nat * A) :=
  match l with
  | [] => []
  | a :: l' => (n, a) :: enumerate (S n) l'
  end.

(** *** [datetime.date] and [datetime.strptime(s, "%Y%m%d").date()] *)

Record date : Type := Date { year : nat; month : nat; day : nat }.

#[global] Instance date_eq_dec : EqDecision date.
Proof. solve_decision. Defined.

#[global] Instance date_countable : Countable date.
Proof.
  refine (inj_countable' (fun d => (year d, month d, day d))
                         (fun t => Date t.1.1 t.1.2 t.2) _).
  by intros [].
Defined.

(** [a < b] on dates. *)
Definition date_ltb (a b : date) : bool :=
  (year a <? year b)%nat
  || ((year a =? year b)%nat
      && ((month a <? month b)%nat
          || ((month a =? month b)%nat && (day a <? day b)%nat))).

Definition date_leb (a b : date) : bool := negb (date_ltb b a).

Definition is_leap (y : nat) : bool :=
  ((y mod 4 =? 0)%nat && negb (y mod 100 =? 0)%nat) || (y mod 400 =? 0)%nat.

Definition days_in_month (y m : nat) : nat :=
  match m with
  | 2 => if is_leap y then 29 else 28
  | 4 | 6 | 9 | 11 => 30
  | _ => 31
  end.

(** [datetime.date(y, m, d)] raises [ValueError] outside the calendar. *)
Definition make_date (y m d : nat) : result date :=
  if (1 <=? y)%nat && (y <=? 9999)%nat
     && (1 <=? m)%nat && (m <=? 12)%nat
     && (1 <=? d)%nat && (d <=? days_in_month y m)%nat
  then Ok (Date y m d) else Raise ValueError.

Definition digit_val (c : ascii) : nat := code c - 48.

Definition in_range (lo hi : nat) (c : ascii) : bool :=
  (lo <=? code c)%nat && (code c <=? hi)%nat.

(** The directive [%Y] is the pattern [\d\d\d\d]. *)
Definition rx_Y (s : string) : option (nat * string) :=
  match s with
  | String a (String b (String c (String d r))) =>
      if is_digit a && is_digit b && is_digit c && is_digit d
      then Some (1000 * digit_val a + 100 * digit_val b
                 + 10 * digit_val c + digit_val d, r)
      else None
  | _ => None
  end.

(** The directive [%m] is [1[0-2]|0[1-9]|[1-9]], alternatives in that order. *)
Definition rx_m : list (string -> option (nat * string)) :=
  [ fun s => match s with
             | String a (String b r) =>
                 if Ascii.eqb a "1" && in_range 48 50 b
                 then Some (10 + digit_val b, r) else None
             | _ => None
             end;
    fun s => match s with
             | String a (String b r) =>
                 if Ascii.eqb a "0" && in_range 49 57 b
                 then Some (digit_val b, r) else None
             | _ => None
             end;
    fun s => match s with
             | String a r =>
                 if in_range 49 57 a then Some (digit_val a, r) else None
             | _ => None
             end ].

(** The directive [%d] is [3[0-1]|[1-2]\d|0[1-9]|[1-9]| [1-9]]. *)
Definition rx_d : list (string -> option (nat * string)) :=
  [ fun s => match s with
             | String a (String b r) =>
                 if Ascii.eqb a "3" && in_range 48 49 b
                 then Some (30 + digit_val b, r) else None
             | _ => None
             end;
    fun s => match s with
             | String a (String b r) =>
                 if in_range 49 50 a && is_digit b
                 then Some (10 * digit_val a + digit_val b, r) else None
             | _ => None
             end;
    fun s => match s with
             | String a (String b r) =>
                 if Ascii.eqb a "0" && in_range 49 57 b
                 then Some (digit_val b, r) else None
             | _ => None
             end;
    fun s => match s with
             | String a r =>
                 if in_range 49 57 a then Some (digit_val a, r) else None
             | _ => None
             end;
    fun s => match s with
             | String a (String b r) =>
                 if Ascii.eqb a " " && in_range 49 57 b
                 then Some (digit_val b, r) else None
             | _ => None
             end ].

(** First alternative that matches a prefix. *)
Fixpoint first_alt {A} (alts : list (string -> option A)) (s : string) : option A :=
  match alts with
  | [] => None
  | f :: alts' => match f s with Some a => Some a | None => first_alt alts' s end
  end.

(** The month alternatives are tried in order; one is kept only if a day
    alternative matches what follows it (the matcher backtracks). *)
Fixpoint rx_md (ms : list (string -> option (nat * string))) (s : string)
  : option (nat * nat * string) :=
  match ms with
  | [] => None
  | f :: ms' =>
      match f s with
      | Some (m, r) =>
          match first_alt rx_d r with
          | Some (d, r') => Some (m, d, r')
          | None => rx_md ms' s
          end
      | None => rx_md ms' s
      end
  end.

(** [datetime.strptime(s, "%Y%m%d").date()]: the pattern must match at the
    start of [s] and leave nothing unconverted; the fields must then form a
    calendar date. *)
Definition strptime_Ymd (s : string) : result date :=
  match rx_Y s with
  | None => Raise ValueError
  | Some (y, r) =>
      match rx_md rx_m r with
      | None => Raise ValueError
      | Some (m, d, EmptyString) => make_date y m d
      | Some (_, _, String _ _) => Raise ValueError
      end
  end.

(** *** JSON values as [json.load] returns them

    Objects are kept as the list of their items (keys distinct, as in a
    Python [dict]); numbers are the integers of the data sets. *)

Inductive json : Type :=
| JNull
| JBool (b : bool)
| JInt (z : Z)
| JStr (s : string)
| JList (l : list json)
| JDict (d : list (string * json)).

Fixpoint assoc {A} (k : string) (d : list (string * A)) : option A :=
  match d with
  | [] => None
  | (k', v) :: d' => if String.eqb k' k then Some v else assoc k d'
  end.

(** [x.get(k, dflt)] *)
Definition get (x : json) (k : string) (dflt : json) : result json :=
  match x with
  | JDict d => Ok (default dflt (assoc k d))
  | _ => Raise AttributeError
  end.

(** [x[k]] for a string key [k] *)
Definition subscript (x : json) (k : string) : result json :=
  match x with
  | JDict d => match assoc k d with Some v => Ok v | None => Raise KeyError end
  | _ => Raise TypeError
  end.

(** [isinstance(x, dict) and k in x] *)
Definition is_dict_with (x : json) (k : string) : bool :=
  match x with
  | JDict d => bool_decide (is_Some (assoc k d))
  | _ => false
  end.

(** Digits of an integer literal; a single underscore may separate digits. *)
Fixpoint int_digits (s : string) (acc : Z) (after_digit : bool) : option Z :=
  match s with
  | EmptyString => if after_digit then Some acc else None
  | String c s' =>
      if is_digit c then int_digits s' (10 * acc + Z.of_nat (digit_val c))%Z true
      else if Ascii.eqb c "_" && after_digit then int_digits s' acc false
      else None
  end.

(** [int(s)] on a string: surrounding white space, an optional sign, decimal
    digits.  (The cap some interpreters put on the number of digits is not
    modelled.) *)
Definition int_of_str (s : string) : option Z :=
  match strip s with
  | String "-" r => Z.opp <$> int_digits r 0%Z false
  | String "+" r => int_digits r 0%Z false
  | r => int_digits r 0%Z false
  end.

(** [int(x)] *)
Definition py_int (x : json) : result Z :=
  match x with
  | JInt z => Ok z
  | JBool b => Ok (if b then 1 else 0)%Z
  | JStr s => match int_of_str s with Some z => Ok z | None => Raise ValueError end
  | _ => Raise TypeError
  end.

(** *** Zip archives: the members in archive order, each with its decoded
    content; [None] stands for a path at which no file exists. *)

Definition archive (A : Type) : Type := list (string * A).

(** [z.namelist()] *)
Definition namelist {A} (z : archive A) : list string := map fst z.

(** [z.read(name)]: for a repeated name the last member is read. *)
Fixpoint zread {A} (z : archive A) (name : string) : result A :=
  match z with
  | [] => Raise KeyError
  | (n, a) :: z' =>
      match zread z' name with
      | Ok b => Ok b
      | Raise _ => if String.eqb n name then Ok a else Raise KeyError
      end
  end.

(** [zipfile.ZipFile(path, "r")] *)
Definition open_zip {A} (z : option (archive A)) : result (archive A) :=
  match z with
  | Some a => Ok a
  | None => Raise FileNotFoundError
  end.

(** *** Integer division rounded, and list subscripts *)

(** [round(a / b)] for integers [a] and [b > 0]: the true division gives the
    float nearest to the quotient and [round] the nearest integer, ties going
    to the even one.  For the sizes of list indices ([|a| < 2^52]) a quotient
    that is not a tie is further from the tie than the float is from the
    quotient, so the result is the exact quotient rounded half to even. *)
Definition round_div (a b : Z) : Z :=
  let q := (a / b)%Z in
  let r := (a mod b)%Z in
  if (2 * r <? b)%Z then q
  else if (b <? 2 * r)%Z then (q + 1)%Z
  else if Z.even q then q else (q + 1)%Z.

(** [range(k)] *)
Definition range (k : Z) : list Z := map Z.of_nat (seq 0 (Z.to_nat k)).

(** [l[i]]: a negative index counts from the end; [None] stands for
    [IndexError]. *)
Definition getitem {A} (l : list A) (i : Z) : option A :=
  let n := Z.of_nat (length l) in
  if (0 <=? i)%Z then l !! Z.to_nat i
  else if (- n <=? i)%Z then l !! Z.to_nat (n + i)
  else None.

End Py.

Import Py.

(** [{k: v for k, v in l}]: a later pair replaces an earlier one. *)
Definition dict_of `{Countable K} {V} (l : list (K * V)) : gmap K V :=
  foldl (fun m kv => <[kv.1 := kv.2]> m) ∅ l.

(** ** s3.py *)
Module S3.

(** A YouTube video object, as far as the script reads it:
    [v["id"]], [v["snippet"]["title"]], [int(v["statistics"]["viewCount"])]. *)
Record video : Type := Video {
  v_id : string;
  v_title : string;
  v_viewCount : Z
}.

(** The track dicts built by [iter_spotify_days]. *)
Record track : Type := Track {
  t_id : string;
  t_name : string;
  t_artists : string;
  t_position : nat
}.

(** [item["track"]] of a Spotify playlist item: id, name and the names of
    its artists; a payload is the list [payload["tracks"]["items"]]. *)
Record sp_item : Type := SpItem {
  i_id : string;
  i_name : string;
  i_artists : list string
}.

Definition is_json (name : string) : bool := endswith name ".json".

(** The date token of a member name: [os.path.basename(name).split("_")[0]]. *)
Definition date_token (name : string) : string :=
  split_head "_" (basename name).

Definition iter_youtube_days {A} (zip_path : option (archive A))
  : result (list (date * A)) :=
  z ← open_zip zip_path;
  let json_files := sorted str_ltb (List.filter is_json (namelist z)) in
  mapM (fun name =>
          let date_str := date_token name in
          date ← strptime_Ymd date_str;
          data ← zread z name;
          Ok (date, data))
       json_files.

Definition _spotify_json_files {A} (zip_path : option (archive A))
  : result (list string) :=
  z ← open_zip zip_path;
  Ok (sorted str_ltb (List.filter is_json (namelist z))).

Definition _pick_spotify_file_for_date (files : list string) (date_str : string)
  : result string :=
  let candidates := List.filter (fun f => str_in date_str (basename f)) files in
  match candidates with
  | [] => Raise FileNotFoundError
  | c0 :: _ =>
      match List.find (fun c => str_in "_1800_" c) candidates with
      | Some c => Ok c
      | None => Ok (hd c0 (sorted str_ltb candidates))
      end
  end.

Definition tracks_of_items (items : list sp_item) : list track :=
  map (fun pi => let '(pos, t) := pi in
                 {| t_id := i_id t;
                    t_name := i_name t;
                    t_artists := join ", " (i_artists t);
                    t_position := pos |})
      (enumerate 1 items).

Definition iter_spotify_days (zip_path : option (archive (list sp_item)))
  : result (list (date * list track)) :=
  files ← _spotify_json_files zip_path;
  z ← open_zip zip_path;
  let tokens : gset string := list_to_set (map date_token files) in
  let dates := sorted str_ltb (sorted str_ltb (elements tokens)) in
  mapM (fun date_str =>
          fname ← _pick_spotify_file_for_date files date_str;
          items ← zread z fname;
          date ← strptime_Ymd date_str;
          Ok (date, tracks_of_items items))
       dates.

(** *** The matcher *)

Definition artist_tokens (t : track) : list string :=
  map (fun a => lower (strip a)) (split "," (t_artists t)).

(** The test of the first pass on one video. *)
Definition strict (track_name : string) (tokens : list string) (v : video) : bool :=
  let title := lower (v_title v) in
  str_in track_name title && existsb (fun a => str_in a title) tokens.

(** The test of the second pass. *)
Definition relaxed (track_name : string) (v : video) : bool :=
  str_in track_name (lower (v_title v)).

(** [for v in yt_videos: if ...: best_yt_id = v["id"]; break] *)
Fixpoint first_pass (track_name : string) (tokens : list string)
    (yt_videos : list video) : option string :=
  match yt_videos with
  | [] => None
  | v :: vs =>
      if strict track_name tokens v then Some (v_id v)
      else first_pass track_name tokens vs
  end.

Fixpoint second_pass (track_name : string) (yt_videos : list video)
  : option string :=
  match yt_videos with
  | [] => None
  | v :: vs =>
      if relaxed track_name v then Some (v_id v)
      else second_pass track_name vs
  end.

(** The value of [best_yt_id] at the end of one iteration of the track loop. *)
Definition best_yt_id (t : track) (yt_videos : list video) : option string :=
  let track_name := lower (t_name t) in
  match first_pass track_name (artist_tokens t) yt_videos with
  | Some b => Some b
  | None => second_pass track_name yt_videos
  end.

(** The track loop, threading the dict [mapping]. *)
Definition match_tracks (sp_tracks : list track) (yt_videos : list video)
  : gmap string string :=
  foldl (fun mapping t =>
           match best_yt_id t yt_videos with
           | Some b => <[t_id t := b]> mapping
           | None => mapping
           end)
        ∅ sp_tracks.

Definition common_dates {A B} (yt_by_date : gmap date A) (sp_by_date : gmap date B)
  : list date :=
  sorted date_ltb (elements (dom yt_by_date ∩ dom sp_by_date)).

Definition dict_get `{Countable K} {V} (m : gmap K V) (k : K) : result V :=
  match m !! k with
  | Some v => Ok v
  | None => Raise KeyError
  end.

Definition _build_spotify_youtube_mapping
    (YOUTUBE_ZIP : option (archive (list video)))
    (SPOTIFY_ZIP : option (archive (list sp_item)))
  : result (gmap string string) :=
  yt_days ← iter_youtube_days YOUTUBE_ZIP;
  sp_days ← iter_spotify_days SPOTIFY_ZIP;
  let yt_by_date := dict_of yt_days in
  let sp_by_date := dict_of sp_days in
  match common_dates yt_by_date sp_by_date with
  | [] => Ok ∅
  | ref_date :: _ =>
      yt_videos ← dict_get yt_by_date ref_date;
      sp_tracks ← dict_get sp_by_date ref_date;
      Ok (match_tracks sp_tracks yt_videos)
  end.

(** *** Rank tables *)

(** [sorted(yt_videos, key=lambda v: int(v["statistics"]["viewCount"]),
    reverse=True)] *)
Definition yt_sorted (yt_videos : list video) : list video :=
  sorted_key_desc v_viewCount yt_videos.

(** [enumerate(yt_sorted, start=1)]: the ranked series. *)
Definition ranked (yt_videos : list video) : list (nat * video) :=
  enumerate 1 (yt_sorted yt_videos).

(** [{v["id"]: rank for rank, v in enumerate(yt_sorted, start=1)}] *)
Definition yt_rank (yt_videos : list video) : gmap string nat :=
  dict_of (map (fun rv => (v_id rv.2, rv.1)) (ranked yt_videos)).

(** *** Picking days *)

Definition evenly_spaced_indices (n k : Z) : list Z :=
  if (k =? 1)%Z then [0%Z]
  else map (fun i => round_div (i * (n - 1)) (k - 1)) (range k).

(** [num_days = min(num_days, len(days))], then
    [[days[i] for i in evenly_spaced_indices(len(days), num_days)]]. *)
Fixpoint getitems {A} (days : list A) (indices : list Z) : option (list A) :=
  match indices with
  | [] => Some []
  | i :: indices' =>
      match getitem days i, getitems days indices' with
      | Some d, Some ds => Some (d :: ds)
      | _, _ => None
      end
  end.

Definition select_days {A} (days : list A) (num_days : Z) : option (list A) :=
  let n := Z.of_nat (length days) in
  let num_days := Z.min num_days n in
  getitems days (evenly_spaced_indices n num_days).

(** *** View counts of one day, read from the raw video objects *)

Fixpoint get_youtube_view_counts_for_day (videos : list json) : result (list Z) :=
  match videos with
  | [] => Ok []
  | v :: videos' =>
      stats ← get v "statistics" (JDict []);
      vc ← get stats "viewCount" JNull;
      match vc with
      | JNull => get_youtube_view_counts_for_day videos'
      | _ =>
          match py_int vc with
          | Ok n => views ← get_youtube_view_counts_for_day videos'; Ok (n :: views)
          | Raise ValueError => get_youtube_view_counts_for_day videos'
          | Raise e => Raise e
          end
      end
  end.

(** *** The pairs of ranks compared on one day *)

(** The loop over [sp_tracks] in [compare_spotify_youtube_rankings], on the
    three lists [(xs, ys, names)]. *)
Definition matched_step (mapping : gmap string string) (yt_rank : gmap string nat)
    (acc : list nat * list nat * list (string * string)) (t : track)
  : list nat * list nat * list (string * string) :=
  let '(xs, ys, names) := acc in
  match mapping !! t_id t with
  | None => acc
  | Some yt_id =>
      match yt_rank !! yt_id with
      | None => acc
      | Some r => (xs ++ [t_position t], ys ++ [r], names ++ [(t_name t, t_artists t)])
      end
  end.

Definition matched_ranks (mapping : gmap string string) (yt_rank : gmap string nat)
    (sp_tracks : list track) : list nat * list nat * list (string * string) :=
  foldl (matched_step mapping yt_rank) ([], [], []) sp_tracks.

(** The arguments [_spearman_correlation] receives for one date, [None] when
    the date is skipped ([if not xs: continue]). *)
Definition correlation_args (mapping : gmap string string)
    (yt_videos : list video) (sp_tracks : list track)
  : option (list nat * list nat) :=
  let '(xs, ys, _) := matched_ranks mapping (yt_rank yt_videos) sp_tracks in
  match xs with
  | [] => None
  | _ => Some (xs, ys)
  end.

End S3.

(** ** s1.py *)
Module S1.

(** One row of the data frame. *)
Record row : Type := Row {
  r_date : option date;
  r_video_id : json;
  r_title : json;
  r_likes : Z;
  r_dislikes : Z;
  r_diff : Z
}.

Definition is_json (name : string) : bool := endswith (lower name) ".json".

(** The date attached to a member: the token before the first underscore of
    the file name, when it is eight digits that form a calendar date. *)
Definition date_of_member (name : string) : option date :=
  let filename := basename name in
  let date_part := split_head "_" filename in
  if isdigit date_part && (String.length date_part =? 8)%nat then
    match strptime_Ymd date_part with
    | Ok d => Some d
    | Raise _ => None
    end
  else None.

Definition video_id_of (item raw_id : json) : result json :=
  if is_dict_with raw_id "videoId" then subscript raw_id "videoId"
  else
    match item with
    | JDict d =>
        match assoc "resourceId" d with
        | Some r =>
            if is_dict_with r "videoId" then subscript r "videoId"
            else Ok raw_id
        | None => Ok raw_id
        end
    | _ => Raise TypeError
    end.

(** The body of [for item in data]. *)
Definition row_of_item (date : option date) (item : json) : result row :=
  raw_id ← get item "id" JNull;
  video_id ← video_id_of item raw_id;
  snippet ← get item "snippet" (JDict []);
  title ← get snippet "title" (JStr "Unknown title");
  stats ← get item "statistics" (JDict []);
  lk ← get stats "likeCount" (JInt 0);
  likes ← py_int lk;
  dl ← get stats "dislikeCount" (JInt 0);
  dislikes ← py_int dl;
  Ok {| r_date := date; r_video_id := video_id; r_title := title;
        r_likes := likes; r_dislikes := dislikes;
        r_diff := (likes - dislikes)%Z |}.

(** The body of [for name in json_files]: the rows one member contributes. *)
Definition rows_of_member (z : archive json) (name : string) : result (list row) :=
  let date := date_of_member name in
  data ← zread z name;
  match data with
  | JList items => mapM (row_of_item date) items
  | _ => Raise TypeError
  end.

Definition load_youtube_from_zip (zip_path : option (archive json))
  : result (list row) :=
  match zip_path with
  | None => Raise FileNotFoundError
  | Some _ =>
      z ← open_zip zip_path;
      let json_files := List.filter is_json (namelist z) in
      match json_files with
      | [] => Raise FileNotFoundError
      | _ =>
          rows ← mapM (rows_of_member z) json_files;
          Ok (concat rows)
      end
  end.

End S1.

(** ** a5_collect.py *)
Module A5Collect.

Definition SEARCH_QUERY : string := "hip hop music".
Definition VIDEO_CATEGORY_ID : string := "10".
Definition VIDEO_DURATION : string := "short".
Definition TARGET_VIDEO_COUNT : nat := 200.

(** One answer of [youtube.search().list(...).execute()]: the [items], when
    the key is present, each with its [item["id"]["videoId"]] when it has
    one, and the [nextPageToken]. *)
Record response : Type := Response {
  items : option (list (option string));
  nextPageToken : option string
}.

(** [for item in response.get("items", [])]: the inner loop, on the pair
    [(video_ids, seen_ids)]. *)
Fixpoint add_items (its : list (option string))
    (video_ids : list string) (seen_ids : gset string)
  : result (list string * gset string) :=
  match its with
  | [] => Ok (video_ids, seen_ids)
  | None :: _ => Raise KeyError
  | Some vid :: its' =>
      if bool_decide (vid ∉ seen_ids)
      then add_items its' (video_ids ++ [vid]) ({[vid]} ∪ seen_ids)
      else add_items its' video_ids seen_ids
  end.

(** [not page_token] *)
Definition falsy (page_token : option string) : bool :=
  match page_token with
  | None | Some EmptyString => true
  | Some _ => false
  end.

(** The [while] loop.  [pages] are the answers of the service, one for each
    request, in order; [None] when the loop asks for one more answer than
    [pages] holds. *)
Fixpoint search_loop (pages : list response)
    (video_ids : list string) (seen_ids : gset string)
  : option (result (list string)) :=
  if (length video_ids <? TARGET_VIDEO_COUNT)%nat then
    match pages with
    | [] => None
    | response :: pages' =>
        match add_items (default [] (items response)) video_ids seen_ids with
        | Raise e => Some (Raise e)
        | Ok (video_ids', seen_ids') =>
            if falsy (nextPageToken response) then Some (Ok video_ids')
            else search_loop pages' video_ids' seen_ids'
        end
    end
  else Some (Ok video_ids).

Definition search_video_ids (pages : list response) : option (result (list string)) :=
  search_loop pages [] ∅.

(** [save_dataset]: the object handed to [json.dump]; [utcnow] is the text
    of [datetime.utcnow().isoformat()]. *)
Definition save_dataset (utcnow : string) (videos : list json) : json :=
  JDict [ ("query", JStr SEARCH_QUERY);
          ("videoCategoryId", JStr VIDEO_CATEGORY_ID);
          ("videoDuration", JStr VIDEO_DURATION);
          ("collectedAt", JStr (utcnow ++ "Z"));
          ("videoCount", JInt (Z.of_nat (length videos)));
          ("items", JList videos) ].

End A5Collect.

(** ** a5_analyze.py *)
Module A5Analyze.

(** [for v in x] *)
Definition iterate (x : json) : result (list json) :=
  match x with
  | JList l => Ok l
  | JDict d => Ok (map (fun kv => JStr kv.1) d)
  | JStr s => Ok (map (fun c => JStr (String c EmptyString)) (list_ascii_of_string s))
  | _ => Raise TypeError
  end.

(** [[v["viewCount"] for v in items if v.get("viewCount") is not None]] *)
Fixpoint view_counts_of (items : list json) : result (list json) :=
  match items with
  | [] => Ok []
  | v :: items' =>
      g ← get v "viewCount" JNull;
      match g with
      | JNull => view_counts_of items'
      | _ => x ← subscript v "viewCount";
             rest ← view_counts_of items';
             Ok (x :: rest)
      end
  end.

(** [load_view_counts]: [file] is the decoded content of the file at
    [path], [None] when there is no such file. *)
Definition load_view_counts (file : option json) : result (list json * json) :=
  match file with
  | None => Raise FileNotFoundError
  | Some data =>
      items ← subscript data "items";
      vs ← iterate items;
      view_counts ← view_counts_of vs;
      Ok (view_counts, data)
  end.

(** [np.sort(view_counts)[::-1]] and [np.arange(1, len(sorted_views) + 1)] *)
Definition sorted_views (view_counts : list Z) : list Z :=
  rev (sorted Z.ltb view_counts).

Definition ranks (view_counts : list Z) : list nat :=
  seq 1 (length (sorted_views view_counts)).

End A5Analyze.

(** ** a5_collect.py: the details of the videos and the whole run *)
Module A5Fetch.

(** [video_ids[i:i + 50] for i in range(0, len(video_ids), 50)] *)
Definition batches (video_ids : list string) : list (list string) :=
  map (fun j => take 50 (drop (50 * j) video_ids))
      (seq 0 ((length video_ids + 49) / 50)).

(** [int(stats.get(k, 0)) if k in stats else None] *)
Definition optional_count (stats : json) (k : string) : result json :=
  if is_dict_with stats k then
    x ← get stats k (JInt 0);
    n ← py_int x;
    Ok (JInt n)
  else Ok JNull.

(** The simplified dict appended for one item of an answer. *)
Definition simplify (item : json) : result json :=
  snippet ← get item "snippet" (JDict []);
  stats ← get item "statistics" (JDict []);
  id ← get item "id" JNull;
  title ← get snippet "title" JNull;
  channelId ← get snippet "channelId" JNull;
  channelTitle ← get snippet "channelTitle" JNull;
  publishedAt ← get snippet "publishedAt" JNull;
  vc ← get stats "viewCount" (JInt 0);
  viewCount ← py_int vc;
  likeCount ← optional_count stats "likeCount";
  commentCount ← optional_count stats "commentCount";
  Ok (JDict [ ("id", id);
              ("title", title);
              ("channelId", channelId);
              ("channelTitle", channelTitle);
              ("publishedAt", publishedAt);
              ("viewCount", JInt viewCount);
              ("likeCount", likeCount);
              ("commentCount", commentCount) ]).

(** The body of the loop over the batches: [videos_list ids] is the answer
    of [youtube.videos().list(id=ids, ...).execute()]. *)
Definition fetch_batch (videos_list : string -> json) (batch_ids : list string)
  : result (list json) :=
  let response := videos_list (join "," batch_ids) in
  items ← get response "items" (JList []);
  its ← A5Analyze.iterate items;
  mapM simplify its.

Definition fetch_video_details (videos_list : string -> json)
    (video_ids : list string) : result (list json) :=
  videos ← mapM (fetch_batch videos_list) (batches video_ids);
  Ok (concat videos).

(** [main]: the dataset that is written, for the answers [pages] of the
    search and the answers [videos_list] of the detail requests. *)
Definition main (pages : list A5Collect.response) (videos_list : string -> json)
    (utcnow : string) : option (result json) :=
  match A5Collect.search_video_ids pages with
  | None => None
  | Some (Raise e) => Some (Raise e)
  | Some (Ok video_ids) =>
      Some (videos ← fetch_video_details videos_list video_ids;
            Ok (A5Collect.save_dataset utcnow videos))
  end.

End A5Fetch.

(** ** Predicates used to state the properties *)
Module Spec.

(** [sub] occurs in [s] as a contiguous substring. *)
Definition contains (s sub : string) : Prop :=
  exists pre post, s = (pre ++ sub ++ post)%string.

(** The strict criterion of the matcher: the lowercased title contains the
    lowercased track name and at least one artist token. *)
Definition strict_match (t : S3.track) (v : S3.video) : Prop :=
  contains (lower (S3.v_title v)) (lower (S3.t_name t))
  /\ exists a, a ∈ S3.artist_tokens t /\ contains (lower (S3.v_title v)) a.

(** The relaxed criterion: the lowercased title contains the track name. *)
Definition relaxed_match (t : S3.track) (v : S3.video) : Prop :=
  contains (lower (S3.v_title v)) (lower (S3.t_name t)).

(** [v] is the first element of [l] that satisfies [P]. *)
Definition first_such {A} (P : A -> Prop) (l : list A) (v : A) : Prop :=
  exists pre post, l = pre ++ v :: post /\ Forall (fun u => ~ P u) pre /\ P v.

(** The invariant of the collector's loop: [video_ids] has no repetition,
    [seen_ids] is its set of elements, and every id satisfies [src]. *)
Definition loop_inv (src : string -> Prop)
    (video_ids : list string) (seen_ids : gset string) : Prop :=
  NoDup video_ids
  /\ (forall x, x ∈ seen_ids <-> x ∈ video_ids)
  /\ (forall x, x ∈ video_ids -> src x).

(** [x] is the video id of an item of one of the answers. *)
Definition from_pages (pages : list A5Collect.response) (x : string) : Prop :=
  exists r, r ∈ pages /\ Some x ∈ default [] (A5Collect.items r).

(** Every item of every answer carries a video id. *)
Definition items_have_ids (pages : list A5Collect.response) : Prop :=
  Forall (fun r => Forall is_Some (default [] (A5Collect.items r))) pages.

(** Shapes of JSON values. *)
Definition is_list (x : json) : bool :=
  match x with JList _ => true | _ => false end.

Definition is_dict (x : json) : bool :=
  match x with JDict _ => true | _ => false end.

(** A record that the loop body of [load_youtube_from_zip] converts. *)
Definition convertible (item : json) : Prop :=
  forall date, is_ok (S1.row_of_item date item) = true.

(** A document of the expected shape: a list of convertible records. *)
Definition well_shaped (doc : json) : Prop :=
  exists items, doc = JList items /\ Forall convertible items.

(** A string of eight characters. *)
Definition tok8 (c1 c2 c3 c4 c5 c6 c7 c8 : ascii) : string :=
  String c1 (String c2 (String c3 (String c4
    (String c5 (String c6 (String c7 (String c8 EmptyString))))))).

(** A member name without directory part that starts with an eight-digit
    token followed by an underscore, as in [20151109_1800_data.json]. *)
Definition dated_flat (name : string) : Prop :=
  str_in "/" name = false
  /\ exists tok rest, name = (tok ++ "_" ++ rest)%string
                      /\ String.length tok = 8
                      /\ all_digits tok = true.

(** [v["statistics"]["viewCount"]] is present, not null, and [int] turns it
    into [n]; a string is short enough for the cap interpreters put on the
    digits [int] reads. *)
Definition has_view_count (v : json) (n : Z) : Prop :=
  exists d st x,
    v = JDict d /\ assoc "statistics" d = Some (JDict st)
    /\ assoc "viewCount" st = Some x /\ x <> JNull /\ py_int x = Ok n
    /\ match x with JStr s => String.length s <= 4300 | _ => True end.

(** A video object without usable view count: the statistics are missing or
    hold no [viewCount], a null one, or a string that is not a number. *)
Definition no_view_count (v : json) : Prop :=
  exists d st,
    v = JDict d /\ default (JDict []) (assoc "statistics" d) = JDict st
    /\ match default JNull (assoc "viewCount" st) with
       | JNull => True
       | JStr s => int_of_str s = None
       | _ => False
       end.

(** A count of the written records: an integer, or [null] when the
    statistics did not have it. *)
Definition int_or_null (x : json) : Prop :=
  x = JNull \/ exists n, x = JInt n.

(** The shape of a record written by the collector. *)
Definition record_shape (v : json) : Prop :=
  exists id title channelId channelTitle publishedAt viewCount likeCount commentCount,
    v = JDict [ ("id", id); ("title", title); ("channelId", channelId);
                ("channelTitle", channelTitle); ("publishedAt", publishedAt);
                ("viewCount", JInt viewCount);
                ("likeCount", likeCount); ("commentCount", commentCount) ]
    /\ int_or_null likeCount /\ int_or_null commentCount.

End Spec.

(** * Properties *)

(** ** The result monad *)

Lemma bind_Ok {A B} (r : result A) (k : A -> result B) (b : B) :
  (r ≫= k) = Ok b -> exists a, r = Ok a /\ k a = Ok b.
Proof. destruct r as [a|e]; cbn; [eauto | discriminate]. Qed.

Lemma mapM_Ok_length {A B} (f : A -> result B) l bs :
  mapM f l = Ok bs -> length bs = length l.
Proof.
  revert bs. induction l as [|a l IH]; intros bs; cbn.
  - intros [= <-]. reflexivity.
  - destruct (f a) as [b|]; cbn; [|discriminate].
    destruct (mapM f l) as [bs'|]; cbn; [|discriminate].
    intros [= <-]. cbn. f_equal. eauto.
Qed.

Lemma mapM_Ok_Forall2 {A B} (f : A -> result B) l bs :
  mapM f l = Ok bs <-> Forall2 (fun a b => f a = Ok b) l bs.
Proof.
  revert bs. induction l as [|a l IH]; intros bs; cbn.
  - split.
    + intros [= <-]. constructor.
    + intros H. inversion H. reflexivity.
  - split.
    + destruct (f a) as [b|] eqn:Hb; cbn; [|discriminate].
      destruct (mapM f l) as [bs'|] eqn:Hbs; cbn; [|discriminate].
      intros [= <-]. constructor; [exact Hb | by apply IH].
    + intros H. inversion H as [|? b ? bs' Hb Hrest]; subst.
      rewrite Hb. cbn. apply IH in Hrest. rewrite Hrest. reflexivity.
Qed.

Lemma mapM_all_Ok {A B} (f : A -> result B) l :
  Forall (fun a => is_ok (f a) = true) l -> exists bs, mapM f l = Ok bs.
Proof.
  induction 1 as [|a l Ha _ [bs IH]]; cbn.
  - eauto.
  - destruct (f a) as [b|]; [|discriminate]. rewrite IH. cbn. eauto.
Qed.

(** The first element on which [f] raises decides the outcome of the loop. *)
Lemma mapM_first_raise {A B} (f : A -> result B) pre a post e :
  Forall (fun x => is_ok (f x) = true) pre -> f a = Raise e ->
  mapM f (pre ++ a :: post) = Raise e.
Proof.
  intros Hpre Ha. induction Hpre as [|x pre Hx _ IH]; cbn.
  - rewrite Ha. reflexivity.
  - destruct (f x); [|discriminate]. cbn. rewrite IH. reflexivity.
Qed.

(** ** [sorted] and [enumerate] *)

Section Sorting.
Context {A : Type} (lt : A -> A -> bool).

Lemma insert_sorted_perm x l : Permutation (insert_sorted lt x l) (x :: l).
Proof.
  induction l as [|y l IH]; cbn; [reflexivity|].
  destruct (lt y x); [|reflexivity].
  rewrite IH. apply perm_swap.
Qed.

Lemma sorted_perm l : Permutation (sorted lt l) l.
Proof.
  induction l as [|x l IH]; cbn; [reflexivity|].
  fold (sorted lt l). rewrite insert_sorted_perm. by constructor.
Qed.

Lemma sorted_length l : length (sorted lt l) = length l.
Proof. apply Permutation_length, sorted_perm. Qed.

Hypothesis lt_asym : forall a b, lt a b = true -> lt b a = false.
Hypothesis after_trans : forall a b c, after lt a b -> after lt b c -> after lt a c.

Lemma insert_sorted_sorted x l :
  StronglySorted (after lt) l -> StronglySorted (after lt) (insert_sorted lt x l).
Proof.
  induction 1 as [|y l Hl IH Hy]; cbn.
  - repeat constructor.
  - destruct (lt y x) eqn:Hyx.
    + constructor; [exact IH|].
      rewrite insert_sorted_perm. constructor; [|exact Hy].
      by apply lt_asym.
    + constructor; [by constructor|].
      constructor; [exact Hyx|].
      eapply Forall_impl; [exact Hy|]. intros z Hz.
      by apply (after_trans x y z).
Qed.

Lemma sorted_sorted l : StronglySorted (after lt) (sorted lt l).
Proof.
  induction l as [|x l IH]; cbn; [constructor|].
  by apply insert_sorted_sorted.
Qed.

End Sorting.

(** Stability: the elements of a class whose members do not compare strictly
    come out in their input order. *)
Section Stability.
Context {A : Type} (lt : A -> A -> bool) (p : A -> bool).
Hypothesis p_ties : forall a b, p a = true -> p b = true -> lt a b = false.

Lemma insert_sorted_filter x l :
  List.filter p (insert_sorted lt x l) = List.filter p (x :: l).
Proof.
  induction l as [|y l IH]; [reflexivity|].
  cbn [insert_sorted]. destruct (lt y x) eqn:Hyx; [|reflexivity].
  cbn [List.filter] in *. rewrite IH.
  destruct (p y) eqn:Hy, (p x) eqn:Hx; try reflexivity.
  rewrite (p_ties y x Hy Hx) in Hyx. discriminate.
Qed.

Lemma sorted_filter l : List.filter p (sorted lt l) = List.filter p l.
Proof.
  induction l as [|x l IH]; [reflexivity|].
  cbn [sorted foldr]. fold (sorted lt l).
  rewrite insert_sorted_filter. cbn. by rewrite IH.
Qed.
End Stability.

Lemma enumerate_fst {A} n (l : list A) :
  map fst (enumerate n l) = seq n (length l).
Proof.
  revert n. induction l as [|a l IH]; intros n; cbn; [reflexivity|].
  by rewrite IH.
Qed.

Lemma enumerate_snd {A} n (l : list A) : map snd (enumerate n l) = l.
Proof.
  revert n. induction l as [|a l IH]; intros n; cbn; [reflexivity|].
  by rewrite IH.
Qed.

Lemma enumerate_lookup {A} n (l : list A) i :
  enumerate n l !! i = (fun a => (n + i, a)) <$> l !! i.
Proof.
  revert n i. induction l as [|a l IH]; intros n [|i]; cbn; try reflexivity.
  - by rewrite Nat.add_0_r.
  - rewrite IH. by rewrite Nat.add_succ_r.
Qed.

Lemma elem_of_enumerate {A} n (l : list A) r a :
  (r, a) ∈ enumerate n l <-> exists i, r = n + i /\ l !! i = Some a.
Proof.
  rewrite list_elem_of_lookup. split.
  - intros [i Hi]. rewrite enumerate_lookup in Hi.
    destruct (l !! i) as [b|] eqn:Hb; cbn in Hi; [|discriminate].
    injection Hi as <- <-. eauto.
  - intros (i & -> & Hi). exists i. rewrite enumerate_lookup, Hi. reflexivity.
Qed.

Lemma StronglySorted_lookup {A} (R : A -> A -> Prop) l i j a b :
  StronglySorted R l -> i < j -> l !! i = Some a -> l !! j = Some b -> R a b.
Proof.
  intros Hl. revert i j. induction Hl as [|x l Hl IH Hx]; intros i j Hij Hi Hj.
  - discriminate.
  - destruct i as [|i], j as [|j]; try lia; cbn in *.
    + injection Hi as ->. rewrite Forall_forall in Hx. apply Hx.
      eapply list_elem_of_lookup_2; eauto.
    + eapply (IH i j); [lia|eauto..].
Qed.

Lemma StronglySorted_weaken {A} (R R' : A -> A -> Prop) l :
  (forall a b, R a b -> R' a b) -> StronglySorted R l -> StronglySorted R' l.
Proof.
  intros HR. induction 1 as [|x l Hl IH Hx]; constructor; [exact IH|].
  eapply Forall_impl; [exact Hx|]. intros z. apply HR.
Qed.

Lemma sorted_key_desc_sorted {A} (key : A -> Z) l :
  StronglySorted (fun a b => (key b <= key a)%Z) (sorted_key_desc key l).
Proof.
  eapply StronglySorted_weaken; [|apply sorted_sorted].
  - intros a b Hab. unfold after in Hab. lia.
  - intros a b Hab. lia.
  - unfold after. intros a b c Hab Hbc. lia.
Qed.

Lemma filter_split {A} (p : A -> bool) l u a w :
  List.filter p l = u ++ a :: w ->
  exists l1 l2, l = l1 ++ a :: l2 /\ List.filter p l1 = u /\ List.filter p l2 = w.
Proof.
  revert u. induction l as [|x l IH]; intros u; cbn.
  - destruct u; discriminate.
  - destruct (p x) eqn:Hx.
    + destruct u as [|y u]; cbn.
      * intros [= -> <-]. by exists [], l.
      * intros [= -> Hrest]. destruct (IH _ Hrest) as (l1 & l2 & -> & H1 & H2).
        exists (y :: l1), l2. cbn. rewrite Hx, H1. done.
    + intros Hrest. destruct (IH _ Hrest) as (l1 & l2 & -> & H1 & H2).
      exists (x :: l1), l2. cbn. rewrite Hx. done.
Qed.

(** ** Dictionaries built by comprehension *)

Section DictOf.
Context `{Countable K} {V : Type}.
Implicit Types (l : list (K * V)) (k : K) (v : V).

Lemma dict_of_snoc l k v : dict_of (l ++ [(k, v)]) = <[k := v]> (dict_of l).
Proof. unfold dict_of. by rewrite foldl_app. Qed.

Lemma dict_of_lookup_NoDup l k v :
  NoDup (map fst l) -> (k, v) ∈ l -> dict_of l !! k = Some v.
Proof.
  induction l as [|[k' v'] l IH] using rev_ind; intros Hnd Hin.
  - by apply elem_of_nil in Hin.
  - rewrite map_app in Hnd. apply NoDup_app in Hnd as (Hl & Hfresh & _).
    rewrite dict_of_snoc. apply elem_of_app in Hin as [Hin|Hin].
    + rewrite lookup_insert_ne; [by apply IH|].
      intros <-. apply (Hfresh k'); [|cbn; set_solver].
      apply list_elem_of_fmap. by exists (k', v).
    + apply list_elem_of_singleton in Hin as [= -> ->].
      apply lookup_insert_eq.
Qed.

Lemma dict_of_dom l : dom (dict_of l) = list_to_set (map fst l).
Proof.
  induction l as [|[k' v'] l IH] using rev_ind.
  - unfold dict_of. cbn. by rewrite dom_empty_L.
  - rewrite dict_of_snoc, dom_insert_L, IH, map_app, list_to_set_app_L.
    cbn. set_solver.
Qed.
End DictOf.

Lemma rev_lookup {A} (l : list A) i :
  i < length l -> rev l !! i = l !! (length l - S i).
Proof. intros Hi. rewrite rev_alt. by apply reverse_lookup. Qed.

(** ** Rank assignment *)

Lemma ranked_lookup yt_videos i :
  S3.ranked yt_videos !! i = (fun v => (S i, v)) <$> S3.yt_sorted yt_videos !! i.
Proof. unfold S3.ranked. by rewrite enumerate_lookup. Qed.

Lemma ranked_NoDup_ids yt_videos :
  NoDup (map S3.v_id yt_videos) ->
  NoDup (map fst (map (fun rv : nat * S3.video => (S3.v_id rv.2, rv.1))
                      (S3.ranked yt_videos))).
Proof.
  intros Hnd. rewrite map_map. cbn.
  rewrite <- (map_map snd S3.v_id). unfold S3.ranked. rewrite enumerate_snd.
  assert (Hp : Permutation (map S3.v_id (S3.yt_sorted yt_videos))
                           (map S3.v_id yt_videos))
    by apply Permutation_map, sorted_perm.
  by rewrite Hp.
Qed.

(** With pairwise distinct ids the dict [yt_rank] is the ranked series. *)
Lemma yt_rank_lookup yt_videos r v :
  NoDup (map S3.v_id yt_videos) -> (r, v) ∈ S3.ranked yt_videos ->
  S3.yt_rank yt_videos !! S3.v_id v = Some r.
Proof.
  intros Hnd Hin. unfold S3.yt_rank.
  apply dict_of_lookup_NoDup; [by apply ranked_NoDup_ids|].
  apply list_elem_of_fmap. by exists (r, v).
Qed.

(** C2. Descending rank assignment: the ranks that [enumerate(yt_sorted,
    start=1)] hands out are exactly 1..N, each once, the ranked records are
    the input records, and the view counts do not increase as the rank
    grows; with pairwise distinct ids the dict [yt_rank] holds these ranks.
    The series of [plot_linear_distribution] ([np.sort(...)[::-1]] against
    [np.arange(1, N + 1)]) has the same three properties. *)
Theorem rank_assignment_exact_and_monotone
    (yt_videos : list S3.video) (view_counts : list Z) :
  (map fst (S3.ranked yt_videos) = seq 1 (length yt_videos)
   /\ Permutation (map snd (S3.ranked yt_videos)) yt_videos
   /\ (forall r1 r2 v1 v2,
         (r1, v1) ∈ S3.ranked yt_videos -> (r2, v2) ∈ S3.ranked yt_videos ->
         r1 <= r2 -> (S3.v_viewCount v2 <= S3.v_viewCount v1)%Z)
   /\ (NoDup (map S3.v_id yt_videos) ->
       forall r v, (r, v) ∈ S3.ranked yt_videos ->
                   S3.yt_rank yt_videos !! S3.v_id v = Some r))
  /\ (A5Analyze.ranks view_counts = seq 1 (length view_counts)
      /\ Permutation (A5Analyze.sorted_views view_counts) view_counts
      /\ (forall i j a b,
            i <= j ->
            A5Analyze.sorted_views view_counts !! i = Some a ->
            A5Analyze.sorted_views view_counts !! j = Some b ->
            (b <= a)%Z)).
Proof.
  split; [split; [|split; [|split]]|split; [|split]].
  - unfold S3.ranked. rewrite enumerate_fst. unfold S3.yt_sorted, sorted_key_desc.
    by rewrite sorted_length.
  - unfold S3.ranked. rewrite enumerate_snd. apply sorted_perm.
  - intros r1 r2 v1 v2 H1 H2 Hr.
    apply elem_of_enumerate in H1 as (i & -> & Hi).
    apply elem_of_enumerate in H2 as (j & -> & Hj).
    destruct (decide (i = j)) as [->|Hne].
    + rewrite Hi in Hj. injection Hj as ->. lia.
    + eapply (StronglySorted_lookup _ _ i j v1 v2
                (sorted_key_desc_sorted S3.v_viewCount yt_videos));
        [lia|exact Hi|exact Hj].
  - intros Hnd r v. by apply yt_rank_lookup.
  - unfold A5Analyze.ranks, A5Analyze.sorted_views.
    by rewrite length_rev, sorted_length.
  - unfold A5Analyze.sorted_views. rewrite <- Permutation_rev. apply sorted_perm.
  - intros i j a b Hij Hi Hj.
    destruct (decide (i = j)) as [->|Hne].
    { rewrite Hi in Hj. injection Hj as ->. lia. }
    assert (Hs : StronglySorted (fun x y : Z => (x <= y)%Z)
                   (sorted Z.ltb view_counts)).
    { eapply StronglySorted_weaken; [|apply sorted_sorted].
      - intros x y Hxy. unfold after in Hxy. lia.
      - intros x y Hxy. lia.
      - unfold after. intros x y z Hxy Hyz. lia. }
    unfold A5Analyze.sorted_views in Hi, Hj.
    pose proof (lookup_lt_Some _ _ _ Hi) as Hli.
    pose proof (lookup_lt_Some _ _ _ Hj) as Hlj.
    rewrite length_rev in Hli, Hlj.
    rewrite rev_lookup in Hi by lia.
    rewrite rev_lookup in Hj by lia.
    eapply (StronglySorted_lookup _ _ _ _ b a Hs); [|exact Hj|exact Hi]. lia.
Qed.

Lemma rank_assignment_exact_and_monotone_witness :
  S3.yt_rank [S3.Video "x" "X" 5; S3.Video "y" "Y" 9] !! "y" = Some 1.
Proof.
  refine (proj2 (proj2 (proj2 (proj1
    (rank_assignment_exact_and_monotone
       [S3.Video "x" "X" 5; S3.Video "y" "Y" 9] []))))
    _ 1 (S3.Video "y" "Y" 9) _).
  - cbn. repeat constructor; set_solver.
  - vm_compute. set_solver.
Defined.

Lemma yt_sorted_filter yt_videos m :
  List.filter (fun v => (S3.v_viewCount v =? m)%Z) (S3.yt_sorted yt_videos)
  = List.filter (fun v => (S3.v_viewCount v =? m)%Z) yt_videos.
Proof.
  apply sorted_filter. intros a b Ha Hb. lia.
Qed.

(** Two records with the same view count, the first before the second in the
    input, stand in that order in the sorted list. *)
Lemma yt_sorted_keeps_order pre a mid b post :
  S3.v_viewCount a = S3.v_viewCount b ->
  exists i j, i < j
    /\ S3.yt_sorted (pre ++ a :: mid ++ b :: post) !! i = Some a
    /\ S3.yt_sorted (pre ++ a :: mid ++ b :: post) !! j = Some b.
Proof.
  intros Hab.
  pose (p := fun v => (S3.v_viewCount v =? S3.v_viewCount a)%Z).
  pose proof (yt_sorted_filter (pre ++ a :: mid ++ b :: post)
                (S3.v_viewCount a)) as Hf.
  fold p in Hf.
  rewrite (List.filter_app p pre) in Hf. cbn [List.filter] in Hf.
  rewrite (List.filter_app p mid) in Hf. cbn [List.filter] in Hf.
  assert (Ha : p a = true) by (unfold p; lia).
  assert (Hb : p b = true) by (unfold p; lia).
  rewrite Ha, Hb in Hf.
  apply filter_split in Hf as (l1 & l2 & Hl & _ & H2).
  apply filter_split in H2 as (l3 & l4 & -> & _ & _).
  rewrite Hl. exists (length l1), (length l1 + S (length l3)).
  split; [lia|]. split.
  - by apply list_lookup_middle.
  - rewrite lookup_app_r by lia.
    replace (length l1 + S (length l3) - length l1) with (S (length l3)) by lia.
    cbn. by apply list_lookup_middle.
Qed.

(** C3. Rank assignment is stable: among the records of one view count the
    sorted list keeps the input order, so of two such records the one that
    comes first in the input receives the smaller rank; with pairwise
    distinct ids this is the order of their entries in the dict [yt_rank]. *)
Theorem rank_assignment_stable (yt_videos : list S3.video) :
  (forall m,
      List.filter (fun v => (S3.v_viewCount v =? m)%Z) (S3.yt_sorted yt_videos)
      = List.filter (fun v => (S3.v_viewCount v =? m)%Z) yt_videos)
  /\ (forall pre a mid b post,
        yt_videos = pre ++ a :: mid ++ b :: post ->
        S3.v_viewCount a = S3.v_viewCount b ->
        exists ra rb, ra < rb
          /\ S3.ranked yt_videos !! (ra - 1) = Some (ra, a)
          /\ S3.ranked yt_videos !! (rb - 1) = Some (rb, b)
          /\ (NoDup (map S3.v_id yt_videos) ->
              S3.yt_rank yt_videos !! S3.v_id a = Some ra
              /\ S3.yt_rank yt_videos !! S3.v_id b = Some rb)).
Proof.
  split; [intros m; apply yt_sorted_filter|].
  intros pre a mid b post -> Hab.
  destruct (yt_sorted_keeps_order pre a mid b post Hab) as (i & j & Hij & Hi & Hj).
  exists (S i), (S j).
  assert (Ha : S3.ranked (pre ++ a :: mid ++ b :: post) !! (S i - 1) = Some (S i, a)).
  { replace (S i - 1) with i by lia. by rewrite ranked_lookup, Hi. }
  assert (Hb : S3.ranked (pre ++ a :: mid ++ b :: post) !! (S j - 1) = Some (S j, b)).
  { replace (S j - 1) with j by lia. by rewrite ranked_lookup, Hj. }
  split; [lia|]. split; [exact Ha|]. split; [exact Hb|].
  intros Hnd. split; apply yt_rank_lookup; try exact Hnd;
    eapply list_elem_of_lookup_2; eauto.
Qed.

Lemma rank_assignment_stable_witness :
  exists ra rb, ra < rb
    /\ S3.yt_rank [S3.Video "x" "X" 5; S3.Video "y" "Y" 9; S3.Video "z" "Z" 5]
         !! "x" = Some ra
    /\ S3.yt_rank [S3.Video "x" "X" 5; S3.Video "y" "Y" 9; S3.Video "z" "Z" 5]
         !! "z" = Some rb.
Proof.
  destruct (proj2 (rank_assignment_stable
                     [S3.Video "x" "X" 5; S3.Video "y" "Y" 9; S3.Video "z" "Z" 5])
              [] (S3.Video "x" "X" 5) [S3.Video "y" "Y" 9] (S3.Video "z" "Z" 5) []
              eq_refl eq_refl)
    as (ra & rb & Hlt & _ & _ & Hd).
  exists ra, rb. split; [exact Hlt|]. apply Hd.
  cbn. repeat constructor; set_solver.
Defined.

(** ** The matcher *)

Lemma startswith_spec s p :
  startswith s p = true <-> exists post, s = (p ++ post)%string.
Proof.
  revert s. induction p as [|a p IH]; intros s.
  - split; [intros _; by exists s | by destruct s].
  - destruct s as [|b s]; cbn.
    + split; [done | intros [post Hp]; discriminate].
    + rewrite andb_true_iff, IH, Ascii.eqb_eq. split.
      * intros [-> [post ->]]. by exists post.
      * intros [post [= -> ->]]. eauto.
Qed.

Lemma str_in_spec sub s : str_in sub s = true <-> Spec.contains s sub.
Proof.
  unfold Spec.contains. induction s as [|c s IH].
  - cbn [str_in]. rewrite orb_false_r, startswith_spec. split.
    + intros [post Hp]. by exists EmptyString, post.
    + intros ([|? pre] & post & Hp); [eauto | discriminate].
  - cbn [str_in]. rewrite orb_true_iff, startswith_spec, IH. split.
    + intros [[post Hp] | (pre & post & ->)].
      * by exists EmptyString, post.
      * by exists (String c pre), post.
    + intros ([|c' pre] & post & Hp).
      * left. by exists post.
      * right. injection Hp as -> ->. eauto.
Qed.

Lemma strict_spec t v :
  S3.strict (lower (S3.t_name t)) (S3.artist_tokens t) v = true
  <-> Spec.strict_match t v.
Proof.
  unfold S3.strict, Spec.strict_match.
  rewrite andb_true_iff, str_in_spec, existsb_exists.
  split; intros [Hn (a & Ha & Hin)]; (split; [exact Hn|]); exists a.
  - by rewrite <- str_in_spec, list_elem_of_In.
  - by rewrite str_in_spec, <- list_elem_of_In.
Qed.

Lemma relaxed_spec t v :
  S3.relaxed (lower (S3.t_name t)) v = true <-> Spec.relaxed_match t v.
Proof. apply str_in_spec. Qed.

(** A loop that stops at the first element passing a test returns the id of
    the first such element, and nothing if there is none. *)
Lemma first_pass_spec t yt_videos :
  match S3.first_pass (lower (S3.t_name t)) (S3.artist_tokens t) yt_videos with
  | Some b => exists v, Spec.first_such (Spec.strict_match t) yt_videos v
                        /\ b = S3.v_id v
  | None => Forall (fun u => ~ Spec.strict_match t u) yt_videos
  end.
Proof.
  induction yt_videos as [|u vs IH]; cbn; [constructor|].
  destruct (S3.strict _ _ u) eqn:Hu.
  - exists u. split; [|reflexivity]. exists [], vs.
    split; [reflexivity|]. split; [constructor | by apply strict_spec].
  - assert (Hnu : ~ Spec.strict_match t u)
      by (rewrite <- strict_spec, Hu; discriminate).
    destruct (S3.first_pass _ _ vs).
    + destruct IH as (v & (pre & post & -> & Hpre & Hv) & ->).
      exists v. split; [|reflexivity]. exists (u :: pre), post.
      split; [reflexivity|]. split; [by constructor | exact Hv].
    + by constructor.
Qed.

Lemma second_pass_spec t yt_videos :
  match S3.second_pass (lower (S3.t_name t)) yt_videos with
  | Some b => exists v, Spec.first_such (Spec.relaxed_match t) yt_videos v
                        /\ b = S3.v_id v
  | None => Forall (fun u => ~ Spec.relaxed_match t u) yt_videos
  end.
Proof.
  induction yt_videos as [|u vs IH]; cbn; [constructor|].
  destruct (S3.relaxed _ u) eqn:Hu.
  - exists u. split; [|reflexivity]. exists [], vs.
    split; [reflexivity|]. split; [constructor | by apply relaxed_spec].
  - assert (Hnu : ~ Spec.relaxed_match t u)
      by (rewrite <- relaxed_spec, Hu; discriminate).
    destruct (S3.second_pass _ vs).
    + destruct IH as (v & (pre & post & -> & Hpre & Hv) & ->).
      exists v. split; [|reflexivity]. exists (u :: pre), post.
      split; [reflexivity|]. split; [by constructor | exact Hv].
    + by constructor.
Qed.

Lemma match_tracks_snoc sp_tracks t yt_videos :
  S3.match_tracks (sp_tracks ++ [t]) yt_videos
  = match S3.best_yt_id t yt_videos with
    | Some b => <[S3.t_id t := b]> (S3.match_tracks sp_tracks yt_videos)
    | None => S3.match_tracks sp_tracks yt_videos
    end.
Proof. unfold S3.match_tracks. by rewrite foldl_app. Qed.

Lemma match_tracks_dom sp_tracks yt_videos i :
  is_Some (S3.match_tracks sp_tracks yt_videos !! i) ->
  i ∈ map S3.t_id sp_tracks.
Proof.
  induction sp_tracks as [|t l IH] using rev_ind.
  - unfold S3.match_tracks. cbn. rewrite lookup_empty. by intros [? ?].
  - rewrite match_tracks_snoc, map_app. cbn. intros Hi.
    destruct (S3.best_yt_id t yt_videos).
    + rewrite lookup_insert in Hi. case_decide; set_solver.
    + set_solver.
Qed.

(** With pairwise distinct track ids, the dict holds for each track what its
    own iteration of the loop found. *)
Lemma match_tracks_lookup sp_tracks yt_videos t :
  NoDup (map S3.t_id sp_tracks) -> t ∈ sp_tracks ->
  S3.match_tracks sp_tracks yt_videos !! S3.t_id t = S3.best_yt_id t yt_videos.
Proof.
  induction sp_tracks as [|t' l IH] using rev_ind; intros Hnd Hin.
  - by apply elem_of_nil in Hin.
  - rewrite map_app in Hnd. apply NoDup_app in Hnd as (Hl & Hfresh & _).
    rewrite match_tracks_snoc. apply elem_of_app in Hin as [Hin|Hin].
    + assert (Hne : S3.t_id t' <> S3.t_id t).
      { intros Heq. apply (Hfresh (S3.t_id t)); [|cbn; set_solver].
        apply list_elem_of_fmap. by exists t. }
      destruct (S3.best_yt_id t' yt_videos);
        [rewrite lookup_insert_ne by done|]; by apply IH.
    + apply list_elem_of_singleton in Hin as ->.
      destruct (S3.best_yt_id t' yt_videos) eqn:Hb.
      * apply lookup_insert_eq.
      * destruct (S3.match_tracks l yt_videos !! S3.t_id t') eqn:Hm; [|done].
        exfalso. apply (Hfresh (S3.t_id t')); [|cbn; set_solver].
        apply match_tracks_dom with yt_videos. by rewrite Hm.
Qed.

Lemma first_such_unique {A} (P : A -> Prop) l v v' :
  Spec.first_such P l v -> Spec.first_such P l v' -> v = v'.
Proof.
  intros (pre & post & -> & Hpre & Hv) (pre' & post' & Heq & Hpre' & Hv').
  revert pre' Heq Hpre'. induction Hpre as [|u pre Hu _ IH]; intros pre' Heq Hpre'.
  - destruct pre' as [|u' pre']; cbn in Heq.
    + by injection Heq.
    + injection Heq as -> _. by inversion Hpre'.
  - destruct pre' as [|u' pre']; cbn in Heq.
    + injection Heq as -> _. done.
    + injection Heq as -> Heq. inversion Hpre'; subst. by eapply IH.
Qed.

Lemma first_such_not_all {A} (P : A -> Prop) l v :
  Spec.first_such P l v -> Forall (fun u => ~ P u) l -> False.
Proof.
  intros (pre & post & -> & _ & Hv) Hall.
  apply Forall_app in Hall as [_ Hall]. by inversion Hall.
Qed.



(** ** The reference date *)

Lemma common_dates_disjoint {A B} (yt_days : list (date * A)) (sp_days : list (date * B)) :
  (forall d, d ∈ map fst yt_days -> d ∈ map fst sp_days -> False) ->
  S3.common_dates (dict_of yt_days) (dict_of sp_days) = [].
Proof.
  intros Hdisj. unfold S3.common_dates. rewrite !dict_of_dom.
  assert (Hempty : list_to_set (map fst yt_days) ∩ list_to_set (map fst sp_days)
                   = (∅ : gset date)).
  { apply set_eq. intros d.
    rewrite elem_of_intersection, !elem_of_list_to_set, elem_of_empty.
    split; [intros [Hy Hs]; eauto | done]. }
  rewrite Hempty, elements_empty. reflexivity.
Qed.

(** C6. When the days read from the two archives have no date in common,
    the matcher returns the empty mapping; it does not raise. *)
Theorem no_common_date_empty_mapping
    (YOUTUBE_ZIP : option (archive (list S3.video)))
    (SPOTIFY_ZIP : option (archive (list S3.sp_item)))
    (yt_days : list (date * list S3.video))
    (sp_days : list (date * list S3.track)) :
  S3.iter_youtube_days YOUTUBE_ZIP = Ok yt_days ->
  S3.iter_spotify_days SPOTIFY_ZIP = Ok sp_days ->
  (forall d, d ∈ map fst yt_days -> d ∈ map fst sp_days -> False) ->
  S3._build_spotify_youtube_mapping YOUTUBE_ZIP SPOTIFY_ZIP = Ok ∅.
Proof.
  intros Hyt Hsp Hdisj. unfold S3._build_spotify_youtube_mapping.
  rewrite Hyt, Hsp. cbn.
  by rewrite (common_dates_disjoint _ _ Hdisj).
Qed.

Lemma no_common_date_empty_mapping_witness :
  S3._build_spotify_youtube_mapping
    (Some [("20150101_1800_data.json",
            [S3.Video "b1" "Adele - Hello (Official Video)" 9])])
    (Some [("20150102_1800_spotify.json",
            [S3.SpItem "a1" "Hello" ["Adele"]])])
  = Ok ∅.
Proof.
  eapply no_common_date_empty_mapping.
  - vm_compute. reflexivity.
  - vm_compute. reflexivity.
  - cbn. intros d Hy Hs.
    apply list_elem_of_singleton in Hy. apply list_elem_of_singleton in Hs.
    congruence.
Defined.

(** ** The collector *)

Section SearchLoop.
Import A5Collect.
Context (src : string -> Prop).

Lemma add_items_inv its video_ids seen_ids video_ids' seen_ids' :
  Spec.loop_inv src video_ids seen_ids ->
  (forall x, Some x ∈ its -> src x) ->
  add_items its video_ids seen_ids = Ok (video_ids', seen_ids') ->
  Spec.loop_inv src video_ids' seen_ids'.
Proof.
  revert video_ids seen_ids.
  induction its as [|[vid|] its IH]; intros video_ids seen_ids Hinv Hsrc; cbn.
  - by intros [= <- <-].
  - case_bool_decide as Hnew.
    + apply IH; [|intros x Hx; apply Hsrc; set_solver].
      destruct Hinv as (Hnd & Hseen & Hfrom). split; [|split].
      * apply NoDup_app. split; [exact Hnd|]. split; [|apply NoDup_singleton].
        intros x Hx Hx'. apply list_elem_of_singleton in Hx' as ->.
        apply Hnew. by apply Hseen.
      * intros x. rewrite elem_of_union, elem_of_singleton, elem_of_app,
          list_elem_of_singleton, Hseen. tauto.
      * intros x [Hx|Hx]%elem_of_app; [by apply Hfrom|].
        apply list_elem_of_singleton in Hx as ->. apply Hsrc. set_solver.
    + apply IH; [exact Hinv|]. intros x Hx. apply Hsrc. set_solver.
  - discriminate.
Qed.

Lemma search_loop_nil video_ids seen_ids :
  search_loop [] video_ids seen_ids
  = if (length video_ids <? TARGET_VIDEO_COUNT)%nat then None
    else Some (Ok video_ids).
Proof. reflexivity. Qed.

Lemma search_loop_cons r pages video_ids seen_ids :
  search_loop (r :: pages) video_ids seen_ids
  = if (length video_ids <? TARGET_VIDEO_COUNT)%nat then
      match add_items (default [] (items r)) video_ids seen_ids with
      | Raise e => Some (Raise e)
      | Ok (video_ids', seen_ids') =>
          if falsy (nextPageToken r) then Some (Ok video_ids')
          else search_loop pages video_ids' seen_ids'
      end
    else Some (Ok video_ids).
Proof. reflexivity. Qed.

Lemma search_loop_inv pages video_ids seen_ids ids :
  Spec.loop_inv src video_ids seen_ids ->
  (forall x, Spec.from_pages pages x -> src x) ->
  search_loop pages video_ids seen_ids = Some (Ok ids) ->
  Spec.loop_inv src ids (list_to_set ids).
Proof.
  assert (Hfinal : forall l s, Spec.loop_inv src l s ->
                               Spec.loop_inv src l (list_to_set l)).
  { intros l s (Hnd & _ & Hfrom). split; [exact Hnd|]. split; [|exact Hfrom].
    intros x. apply elem_of_list_to_set. }
  revert video_ids seen_ids.
  induction pages as [|r pages IH]; intros video_ids seen_ids Hinv Hsrc.
  - rewrite search_loop_nil.
    destruct (length video_ids <? TARGET_VIDEO_COUNT)%nat; [discriminate|].
    intros [= <-]. eauto.
  - rewrite search_loop_cons.
    destruct (length video_ids <? TARGET_VIDEO_COUNT)%nat;
      [|intros [= <-]; eauto].
    destruct (add_items _ video_ids seen_ids) as [[v' s']|e] eqn:Hadd;
      [|discriminate].
    assert (Hinv' : Spec.loop_inv src v' s').
    { eapply add_items_inv; [exact Hinv| |exact Hadd].
      intros x Hx. apply Hsrc. exists r. split; [set_solver|exact Hx]. }
    destruct (falsy _); [intros [= <-]; eauto|].
    apply IH; [exact Hinv'|].
    intros x (r' & Hr' & Hx). apply Hsrc. exists r'. split; [set_solver|done].
Qed.
End SearchLoop.

Lemma add_items_total its video_ids seen_ids :
  Forall is_Some its ->
  exists vs, A5Collect.add_items its video_ids seen_ids = Ok vs.
Proof.
  intros Hits. revert video_ids seen_ids.
  induction Hits as [|o its [vid ->] _ IH]; intros video_ids seen_ids; cbn.
  - eauto.
  - case_bool_decide; apply IH.
Qed.

(** The loop ends on the answer that carries no page token, if not before. *)
Lemma search_loop_returns init last video_ids seen_ids :
  A5Collect.falsy (A5Collect.nextPageToken last) = true ->
  Spec.items_have_ids (init ++ [last]) ->
  exists ids, A5Collect.search_loop (init ++ [last]) video_ids seen_ids
              = Some (Ok ids).
Proof.
  intros Hlast. revert video_ids seen_ids.
  induction init as [|r init IH]; intros video_ids seen_ids Hids;
    cbn [app]; rewrite search_loop_cons;
    (destruct (length video_ids <? A5Collect.TARGET_VIDEO_COUNT)%nat; [|eauto]);
    inversion Hids as [|? ? Hr Hrest]; subst;
    destruct (add_items_total _ video_ids seen_ids Hr) as [[v' s'] ->].
  - rewrite Hlast. eauto.
  - destruct (A5Collect.falsy (A5Collect.nextPageToken r)); [eauto|].
    by apply IH.
Qed.

(** C9. The list [search_video_ids] returns holds no id twice, whatever the
    answers repeat, and holds ids of the answers only; and the function does
    return when the answers end with one that carries no page token and all
    their items have an id. *)
Theorem search_video_ids_duplicate_free (pages : list A5Collect.response) :
  (forall ids,
      A5Collect.search_video_ids pages = Some (Ok ids) ->
      NoDup ids /\ (forall x, x ∈ ids -> Spec.from_pages pages x))
  /\ (forall init last,
        pages = init ++ [last] ->
        A5Collect.falsy (A5Collect.nextPageToken last) = true ->
        Spec.items_have_ids pages ->
        exists ids, A5Collect.search_video_ids pages = Some (Ok ids)
                    /\ NoDup ids).
Proof.
  assert (H0 : Spec.loop_inv (Spec.from_pages pages) [] ∅).
  { split; [constructor|]. split; intros x; set_solver. }
  assert (Hret : forall ids,
             A5Collect.search_video_ids pages = Some (Ok ids) ->
             NoDup ids /\ (forall x, x ∈ ids -> Spec.from_pages pages x)).
  { intros ids Hrun.
    destruct (search_loop_inv _ pages [] ∅ ids H0 (fun x Hx => Hx) Hrun)
      as (Hnd & _ & Hfrom).
    by split. }
  split; [exact Hret|].
  intros init last -> Hlast Hids.
  destruct (search_loop_returns init last [] ∅ Hlast Hids) as [ids Hrun].
  exists ids. split; [exact Hrun|]. by apply Hret.
Qed.

Lemma search_video_ids_duplicate_free_witness :
  exists ids,
    A5Collect.search_video_ids
      [A5Collect.Response (Some [Some "a"; Some "b"; Some "a"]) (Some "t1");
       A5Collect.Response (Some [Some "b"; Some "c"]) None]
    = Some (Ok ids)
    /\ NoDup ids.
Proof.
  eapply (proj2 (search_video_ids_duplicate_free _)
            [A5Collect.Response (Some [Some "a"; Some "b"; Some "a"]) (Some "t1")]
            (A5Collect.Response (Some [Some "b"; Some "c"]) None)).
  - reflexivity.
  - reflexivity.
  - repeat constructor; eauto.
Defined.

(** C10. In the object [save_dataset] writes, [items] is the list of
    records it was given, in order, and [videoCount] is its length. *)
Theorem save_dataset_count_and_items (utcnow : string) (videos : list json) :
  subscript (A5Collect.save_dataset utcnow videos) "items" = Ok (JList videos)
  /\ subscript (A5Collect.save_dataset utcnow videos) "videoCount"
     = Ok (JInt (Z.of_nat (length videos))).
Proof. split; reflexivity. Qed.

(** ** Archives *)

Lemma zread_Ok_elem {A} (z : archive A) name a :
  zread z name = Ok a -> (name, a) ∈ z.
Proof.
  revert a. induction z as [|[n a'] z IH]; intros a; cbn; [discriminate|].
  destruct (zread z name) as [b|e].
  - intros [= <-]. right. by apply IH.
  - destruct (String.eqb n name) eqn:Hn; [|discriminate].
    intros [= <-]. apply String.eqb_eq in Hn as ->. by left.
Qed.

Lemma zread_Some {A} (z : archive A) name :
  name ∈ namelist z -> exists a, zread z name = Ok a /\ (name, a) ∈ z.
Proof.
  intros Hin.
  assert (Hex : exists a, zread z name = Ok a).
  { induction z as [|[n a] z IH]; cbn in *.
    - by apply elem_of_nil in Hin.
    - destruct (zread z name) as [b|e] eqn:Hz; [eauto|].
      apply elem_of_cons in Hin as [->|Hin].
      + rewrite String.eqb_refl. eauto.
      + destruct (IH Hin) as [a' Ha']. discriminate. }
  destruct Hex as [a Ha]. exists a. split; [exact Ha|]. by apply zread_Ok_elem.
Qed.

Lemma elem_of_filter_names (f : string -> bool) (l : list string) name :
  name ∈ List.filter f l <-> name ∈ l /\ f name = true.
Proof. rewrite !list_elem_of_In. apply filter_In. Qed.

(** ** [load_youtube_from_zip] and [load_view_counts]: failures *)

Lemma rows_of_member_well_shaped z name :
  name ∈ namelist z ->
  Forall (fun m => S1.is_json m.1 = true -> Spec.well_shaped m.2) z ->
  S1.is_json name = true ->
  is_ok (S1.rows_of_member z name) = true.
Proof.
  intros Hin Hz Hj. destruct (zread_Some z name Hin) as (doc & Hdoc & Hm).
  rewrite Forall_forall in Hz. destruct (Hz _ Hm Hj) as (items & Heq & Hitems).
  cbn in Heq. subst doc.
  unfold S1.rows_of_member. rewrite Hdoc. cbn.
  destruct (mapM_all_Ok (S1.row_of_item (S1.date_of_member name)) items) as [rows ->];
    [|reflexivity].
  eapply Forall_impl; [exact Hitems|]. intros it Hit. apply Hit.
Qed.

Lemma view_counts_of_dicts vs :
  Forall (fun v => Spec.is_dict v = true) vs ->
  exists cs, A5Analyze.view_counts_of vs = Ok cs.
Proof.
  induction 1 as [|v vs Hv _ [cs IH]]; cbn; [eauto|].
  destruct v as [| | | | |d]; try discriminate. cbn.
  destruct (assoc "viewCount" d) as [x|] eqn:Hx; cbn.
  - destruct x; rewrite ?IH; cbn; eauto; rewrite Hx; cbn; eauto.
  - rewrite IH. eauto.
Qed.




(** ** Dates in member names *)

Lemma is_digit_bounds c : is_digit c = true -> 48 <= code c <= 57.
Proof. unfold is_digit. rewrite andb_true_iff, !Nat.leb_le. lia. Qed.

Lemma rx_md_4 c5 c6 c7 c8 m d :
  rx_md rx_m (String c5 (String c6 (String c7 (String c8 EmptyString))))
  = Some (m, d, EmptyString) ->
  m = 10 * digit_val c5 + digit_val c6 /\ d = 10 * digit_val c7 + digit_val c8.
Proof.
  cbn [rx_md rx_m first_alt rx_d].
  repeat match goal with
         | |- context [if ?b then _ else _] => destruct b eqn:?
         end; try discriminate;
  intros [= <- <-];
  repeat match goal with
         | H : _ && _ = true |- _ => apply andb_true_iff in H as [? ?]
         | H : Ascii.eqb _ _ = true |- _ => apply Ascii.eqb_eq in H; subst
         | H : in_range _ _ _ = _ |- _ => clear H
         | H : _ && _ = false |- _ => clear H
         end;
  change (digit_val "0") with 0; change (digit_val "1") with 1;
  change (digit_val "3") with 3; change (digit_val " ") with 0;
  lia.
Qed.

Lemma strptime8 c1 c2 c3 c4 c5 c6 c7 c8 d :
  all_digits (Spec.tok8 c1 c2 c3 c4 c5 c6 c7 c8) = true ->
  strptime_Ymd (Spec.tok8 c1 c2 c3 c4 c5 c6 c7 c8) = Ok d ->
  year d = 1000 * digit_val c1 + 100 * digit_val c2 + 10 * digit_val c3 + digit_val c4
  /\ month d = 10 * digit_val c5 + digit_val c6
  /\ day d = 10 * digit_val c7 + digit_val c8.
Proof.
  cbn [all_digits Spec.tok8]. rewrite !andb_true_iff.
  intros (H1 & H2 & H3 & H4 & _).
  unfold strptime_Ymd, Spec.tok8, rx_Y. rewrite H1, H2, H3, H4. cbn [andb].
  destruct (rx_md rx_m _) as [[[m d'] [|? ?]]|] eqn:Hmd; try discriminate.
  apply rx_md_4 in Hmd as [-> ->].
  unfold make_date.
  match goal with
  | |- (if ?b then _ else _) = _ -> _ => destruct b; [|discriminate]
  end.
  by intros [= <-].
Qed.

Lemma str_ltb_cons x a y b :
  str_ltb (String x a) (String y b) = false <->
  code y <= code x /\ (code x = code y -> str_ltb a b = false).
Proof.
  cbn [str_ltb]. rewrite orb_false_iff, andb_false_iff, Nat.ltb_ge, Nat.eqb_neq.
  split; [intros [? [?|?]]; split; auto; intros; done | ].
  intros [? Himp]. split; [done|].
  destruct (decide (code x = code y)); auto.
Qed.

Lemma date_ltb_false a b :
  date_ltb a b = false <->
  (year b < year a
   \/ (year b = year a
       /\ (month b < month a \/ (month b = month a /\ day b <= day a)))).
Proof.
  unfold date_ltb.
  rewrite orb_false_iff, andb_false_iff, orb_false_iff, andb_false_iff,
    !Nat.ltb_ge, !Nat.eqb_neq.
  lia.
Qed.

Lemma digit_val_spec c :
  is_digit c = true -> code c = 48 + digit_val c /\ digit_val c <= 9.
Proof. intros H%is_digit_bounds. unfold digit_val. lia. Qed.

Lemma tok8_order a1 a2 a3 a4 a5 a6 a7 a8 b1 b2 b3 b4 b5 b6 b7 b8 da db :
  all_digits (Spec.tok8 a1 a2 a3 a4 a5 a6 a7 a8) = true ->
  all_digits (Spec.tok8 b1 b2 b3 b4 b5 b6 b7 b8) = true ->
  strptime_Ymd (Spec.tok8 a1 a2 a3 a4 a5 a6 a7 a8) = Ok da ->
  strptime_Ymd (Spec.tok8 b1 b2 b3 b4 b5 b6 b7 b8) = Ok db ->
  str_ltb (Spec.tok8 b1 b2 b3 b4 b5 b6 b7 b8) (Spec.tok8 a1 a2 a3 a4 a5 a6 a7 a8) = false ->
  date_ltb db da = false.
Proof.
  intros Ha Hb Hda Hdb Hlt.
  destruct (strptime8 _ _ _ _ _ _ _ _ _ Ha Hda) as (Hya & Hma & Hdya).
  destruct (strptime8 _ _ _ _ _ _ _ _ _ Hb Hdb) as (Hyb & Hmb & Hdyb).
  apply date_ltb_false. rewrite Hya, Hma, Hdya, Hyb, Hmb, Hdyb.
  clear Hda Hdb Hya Hma Hdya Hyb Hmb Hdyb.
  cbn [all_digits Spec.tok8] in Ha, Hb. rewrite !andb_true_iff in Ha, Hb.
  destruct Ha as (A1 & A2 & A3 & A4 & A5 & A6 & A7 & A8 & _).
  destruct Hb as (B1 & B2 & B3 & B4 & B5 & B6 & B7 & B8 & _).
  repeat match goal with
         | H : is_digit _ = true |- _ => apply digit_val_spec in H as [? ?]
         end.
  unfold Spec.tok8 in Hlt.
  apply str_ltb_cons in Hlt as [L1 Hlt].
  destruct (decide (code b1 = code a1)) as [E1|]; [|lia].
  apply Hlt in E1 as Hlt1. apply str_ltb_cons in Hlt1 as [L2 Hlt2].
  destruct (decide (code b2 = code a2)) as [E2|]; [|lia].
  apply Hlt2 in E2 as Hlt3. apply str_ltb_cons in Hlt3 as [L3 Hlt4].
  destruct (decide (code b3 = code a3)) as [E3|]; [|lia].
  apply Hlt4 in E3 as Hlt5. apply str_ltb_cons in Hlt5 as [L4 Hlt6].
  destruct (decide (code b4 = code a4)) as [E4|]; [|lia].
  apply Hlt6 in E4 as Hlt7. apply str_ltb_cons in Hlt7 as [L5 Hlt8].
  destruct (decide (code b5 = code a5)) as [E5|]; [|lia].
  apply Hlt8 in E5 as Hlt9. apply str_ltb_cons in Hlt9 as [L6 Hlt10].
  destruct (decide (code b6 = code a6)) as [E6|]; [|lia].
  apply Hlt10 in E6 as Hlt11. apply str_ltb_cons in Hlt11 as [L7 Hlt12].
  destruct (decide (code b7 = code a7)) as [E7|]; [|lia].
  apply Hlt12 in E7 as Hlt13. apply str_ltb_cons in Hlt13 as [L8 _].
  lia.
Qed.

Lemma str_ltb_nil_r a : str_ltb a EmptyString = false.
Proof. by destruct a. Qed.

Lemma str_ltb_asym a b : str_ltb a b = true -> str_ltb b a = false.
Proof.
  revert b. induction a as [|x a IH]; intros [|y b]; cbn [str_ltb]; try done.
  rewrite orb_true_iff, andb_true_iff, Nat.ltb_lt, Nat.eqb_eq.
  rewrite orb_false_iff, andb_false_iff, Nat.ltb_ge, Nat.eqb_neq.
  intros [Hlt|[Heq Hab]]; [split; [lia|left; lia]|].
  split; [lia|]. right. by apply IH.
Qed.

Lemma str_after_trans a b c :
  after str_ltb a b -> after str_ltb b c -> after str_ltb a c.
Proof.
  unfold after. revert b c.
  induction a as [|x a IH]; intros b c Hab Hbc; [apply str_ltb_nil_r|].
  destruct b as [|y b]; [discriminate|].
  destruct c as [|z c]; [discriminate|].
  apply str_ltb_cons in Hab as [Hxy Hab]. apply str_ltb_cons in Hbc as [Hyz Hbc].
  apply str_ltb_cons. split; [lia|]. intros Hzx.
  apply (IH b c); [apply Hab|apply Hbc]; lia.
Qed.

Lemma append_cons c s t : (String c s ++ t)%string = String c (s ++ t)%string.
Proof. reflexivity. Qed.

Lemma str_ltb_prefix ta tb x y :
  String.length ta = String.length tb ->
  str_ltb (tb ++ x) (ta ++ y) = false -> str_ltb tb ta = false.
Proof.
  revert tb. induction ta as [|a ta IH]; intros [|b tb]; cbn [String.length]; try done.
  intros Hlen. apply Nat.succ_inj in Hlen. rewrite !append_cons, !str_ltb_cons.
  intros [Hle Himp]. split; [exact Hle|]. intros Heq. apply IH; auto.
Qed.

Lemma basename_flat name : str_in "/" name = false -> basename name = name.
Proof.
  induction name as [|c p IH]; [reflexivity|].
  cbn [str_in basename]. rewrite orb_false_iff. intros [Hc Hp].
  rewrite Hp. cbn [startswith] in Hc.
  assert (Hs : startswith p EmptyString = true) by (by destruct p).
  rewrite Hs, andb_true_r in Hc.
  rewrite Ascii.eqb_sym, Hc. reflexivity.
Qed.

Lemma is_digit_not_underscore c : is_digit c = true -> Ascii.eqb c "_" = false.
Proof.
  intros Hc. destruct (Ascii.eqb c "_") eqn:He; [|reflexivity].
  apply Ascii.eqb_eq in He as ->. discriminate.
Qed.

Lemma split_head_token tok rest :
  all_digits tok = true -> split_head "_" (tok ++ "_" ++ rest) = tok.
Proof.
  unfold split_head. induction tok as [|c tok IH]; cbn [all_digits].
  - intros _. reflexivity.
  - rewrite andb_true_iff. intros [Hc Htok]. rewrite append_cons. cbn [split].
    rewrite (is_digit_not_underscore c Hc).
    specialize (IH Htok). destruct (split "_" (tok ++ "_" ++ rest)) as [|p ps]; cbn in *.
    + by subst.
    + by subst.
Qed.

Lemma length8 tok :
  String.length tok = 8 ->
  exists c1 c2 c3 c4 c5 c6 c7 c8, tok = Spec.tok8 c1 c2 c3 c4 c5 c6 c7 c8.
Proof.
  destruct tok as [|c1 [|c2 [|c3 [|c4 [|c5 [|c6 [|c7 [|c8 [|? ?]]]]]]]]];
    try discriminate.
  intros _. by exists c1, c2, c3, c4, c5, c6, c7, c8.
Qed.

Lemma StronglySorted_Forall2 {A B} (R : A -> B -> Prop)
    (P : A -> A -> Prop) (Q : B -> B -> Prop) l1 l2 :
  Forall2 R l1 l2 ->
  (forall a b x y, a ∈ l1 -> b ∈ l1 -> P a b -> R a x -> R b y -> Q x y) ->
  StronglySorted P l1 -> StronglySorted Q l2.
Proof.
  induction 1 as [|a x l1 l2 Hax Hl IH]; intros HQ Hs; [constructor|].
  inversion Hs as [|? ? Hs' Hall]; subst. constructor.
  - apply IH; [|exact Hs']. intros a' b' x' y' Ha' Hb'. apply HQ; by right.
  - rewrite Forall_forall in Hall. apply Forall_forall. intros y Hy.
    apply list_elem_of_lookup in Hy as [i Hi].
    destruct (Forall2_lookup_r _ _ _ i y Hl Hi) as (b & Hb & Hby).
    apply (HQ a b x y); [by left|right; by eapply list_elem_of_lookup_2| |done|done].
    apply Hall. by eapply list_elem_of_lookup_2.
Qed.

Lemma dated_flat_token name :
  Spec.dated_flat name ->
  exists c1 c2 c3 c4 c5 c6 c7 c8 rest,
    name = (Spec.tok8 c1 c2 c3 c4 c5 c6 c7 c8 ++ "_" ++ rest)%string
    /\ all_digits (Spec.tok8 c1 c2 c3 c4 c5 c6 c7 c8) = true
    /\ S3.date_token name = Spec.tok8 c1 c2 c3 c4 c5 c6 c7 c8.
Proof.
  intros (Hflat & tok & rest & Hname & Hlen & Hdig).
  destruct (length8 tok Hlen) as (c1 & c2 & c3 & c4 & c5 & c6 & c7 & c8 & ->).
  exists c1, c2, c3, c4, c5, c6, c7, c8, rest.
  split; [exact Hname|]. split; [exact Hdig|].
  unfold S3.date_token. rewrite (basename_flat name Hflat), Hname.
  by apply split_head_token.
Qed.

(** Of two flat dated names, the one that does not sort after the other does
    not carry the later date. *)
Lemma dated_flat_order a b da db :
  Spec.dated_flat a -> Spec.dated_flat b ->
  after str_ltb a b ->
  strptime_Ymd (S3.date_token a) = Ok da ->
  strptime_Ymd (S3.date_token b) = Ok db ->
  date_leb da db = true.
Proof.
  intros Ha Hb Hab Hda Hdb.
  destruct (dated_flat_token a Ha)
    as (a1 & a2 & a3 & a4 & a5 & a6 & a7 & a8 & ra & Hna & Hdiga & Hta).
  destruct (dated_flat_token b Hb)
    as (b1 & b2 & b3 & b4 & b5 & b6 & b7 & b8 & rb & Hnb & Hdigb & Htb).
  rewrite Hta in Hda. rewrite Htb in Hdb.
  unfold after in Hab. rewrite Hna, Hnb in Hab.
  apply str_ltb_prefix in Hab; [|reflexivity].
  unfold date_leb.
  by rewrite (tok8_order _ _ _ _ _ _ _ _ _ _ _ _ _ _ _ _ da db
                Hdiga Hdigb Hda Hdb Hab).
Qed.

Lemma strptime_raises s e : strptime_Ymd s = Raise e -> e = ValueError.
Proof.
  unfold strptime_Ymd, make_date.
  destruct (rx_Y s) as [[y r]|]; [|by intros [= <-]].
  destruct (rx_md rx_m r) as [[[m d] [|? ?]]|]; try by intros [= <-].
  match goal with |- (if ?b then _ else _) = _ -> _ => destruct b end;
    [discriminate|by intros [= <-]].
Qed.

Lemma mapM_raise_uniform {A B} (f : A -> result B) l e :
  (forall x e', x ∈ l -> f x = Raise e' -> e' = e) ->
  (exists x, x ∈ l /\ f x = Raise e) ->
  mapM f l = Raise e.
Proof.
  induction l as [|a l IH]; intros Hall (x & Hx & Hfx).
  - by apply elem_of_nil in Hx.
  - cbn. destruct (f a) as [b|e'] eqn:Ha; cbn.
    + apply elem_of_cons in Hx as [->|Hx]; [congruence|].
      rewrite IH; [reflexivity| |eauto].
      intros y e' Hy. apply Hall. by right.
    + f_equal. apply (Hall a); [by left|exact Ha].
Qed.

(** The body of the loop of [iter_youtube_days]. *)
Lemma iter_youtube_days_eq {A} (z : archive A) :
  S3.iter_youtube_days (Some z)
  = mapM (fun name => date ← strptime_Ymd (S3.date_token name);
                      data ← zread z name;
                      Ok (date, data))
         (sorted str_ltb (List.filter S3.is_json (namelist z))).
Proof. reflexivity. Qed.

Lemma iter_youtube_days_Ok {A} (z : archive A) days :
  S3.iter_youtube_days (Some z) = Ok days ->
  Forall2 (fun name day => strptime_Ymd (S3.date_token name) = Ok day.1
                           /\ zread z name = Ok day.2)
          (sorted str_ltb (List.filter S3.is_json (namelist z))) days.
Proof.
  rewrite iter_youtube_days_eq, mapM_Ok_Forall2. intros H.
  eapply Forall2_impl; [exact H|]. clear H. intros name [d data] Hday. cbn in *.
  destruct (strptime_Ymd _) as [d'|]; cbn in Hday; [|discriminate].
  destruct (zread z name) as [data'|]; cbn in Hday; [|discriminate].
  by injection Hday as -> ->.
Qed.

Lemma iter_youtube_days_raises {A} (z : archive A) name :
  name ∈ List.filter S3.is_json (namelist z) ->
  strptime_Ymd (S3.date_token name) = Raise ValueError ->
  S3.iter_youtube_days (Some z) = Raise ValueError.
Proof.
  intros Hin Hbad. rewrite iter_youtube_days_eq.
  apply mapM_raise_uniform.
  - intros x e' Hx. rewrite (sorted_perm str_ltb) in Hx.
    apply elem_of_filter_names in Hx as [Hx _].
    destruct (zread_Some z x Hx) as (a & Ha & _). rewrite Ha.
    destruct (strptime_Ymd (S3.date_token x)) as [d|e''] eqn:Hd; cbn;
      [discriminate|].
    intros [= Heq]. subst e''. by eapply strptime_raises.
  - exists name. split; [by rewrite (sorted_perm str_ltb)|].
    by rewrite Hbad.
Qed.

Lemma iter_youtube_days_ascending {A} (z : archive A) days :
  S3.iter_youtube_days (Some z) = Ok days ->
  Forall Spec.dated_flat (List.filter S3.is_json (namelist z)) ->
  StronglySorted (fun a b => date_leb a b = true) (map fst days).
Proof.
  intros Hdays%iter_youtube_days_Ok Hflat.
  eapply (StronglySorted_Forall2
            (fun name d => strptime_Ymd (S3.date_token name) = Ok d)
            (after str_ltb)).
  - apply Forall2_fmap_r. eapply Forall2_impl; [exact Hdays|].
    intros name day [Hd _]. exact Hd.
  - intros a b da db Ha Hb Hab Hda Hdb.
    rewrite (sorted_perm str_ltb) in Ha, Hb. rewrite Forall_forall in Hflat.
    eapply (dated_flat_order a b); eauto.
  - apply sorted_sorted; [apply str_ltb_asym|apply str_after_trans].
Qed.

(** ** [load_youtube_from_zip]: what is loaded *)

Lemma row_of_item_date date item r :
  S1.row_of_item date item = Ok r -> S1.r_date r = date.
Proof.
  unfold S1.row_of_item. intros H.
  repeat (apply bind_Ok in H as (? & _ & H)).
  by injection H as <-.
Qed.

Lemma rows_of_member_Ok z name g :
  S1.rows_of_member z name = Ok g ->
  exists items, zread z name = Ok (JList items)
                /\ length g = length items
                /\ Forall (fun r => S1.r_date r = S1.date_of_member name) g.
Proof.
  unfold S1.rows_of_member. intros H.
  apply bind_Ok in H as (data & Hdata & H).
  destruct data as [| | | |items|]; try discriminate.
  exists items. split; [exact Hdata|]. split; [by eapply mapM_Ok_length|].
  apply mapM_Ok_Forall2 in H. clear Hdata.
  induction H as [|it r items g Hr _ IH]; [constructor|].
  constructor; [by eapply row_of_item_date|exact IH].
Qed.

Lemma load_youtube_from_zip_Ok z rows :
  S1.load_youtube_from_zip (Some z) = Ok rows ->
  exists groups,
    Forall2 (fun name g => S1.rows_of_member z name = Ok g)
            (List.filter S1.is_json (namelist z)) groups
    /\ rows = concat groups.
Proof.
  cbn. destruct (List.filter S1.is_json (namelist z)) as [|n l] eqn:Hfiles;
    [discriminate|].
  intros H. apply bind_Ok in H as (groups & Hgroups & H).
  injection H as <-. exists groups. split; [|reflexivity].
  by apply mapM_Ok_Forall2.
Qed.




(** * Further properties of the code *)

(** ** Picking days *)

Lemma round_div_bounds a b :
  (0 < b)%Z ->
  (2 * a - b <= 2 * (b * round_div a b) <= 2 * a + b)%Z.
Proof.
  intros Hb. unfold round_div.
  pose proof (Z.div_mod a b ltac:(lia)) as Hdm.
  pose proof (Z.mod_pos_bound a b Hb) as Hm.
  set (q := (a / b)%Z) in *. set (r := (a mod b)%Z) in *.
  destruct (2 * r <? b)%Z eqn:H1; [apply Z.ltb_lt in H1; nia|].
  apply Z.ltb_ge in H1.
  destruct (b <? 2 * r)%Z eqn:H2; [apply Z.ltb_lt in H2; nia|].
  apply Z.ltb_ge in H2.
  destruct (Z.even q); nia.
Qed.

Lemma round_div_exact b c : (0 < b)%Z -> round_div (c * b) b = c.
Proof.
  intros Hb. unfold round_div. rewrite Z.div_mul, Z.mod_mul by lia.
  destruct (2 * 0 <? b)%Z eqn:H; [reflexivity|]. apply Z.ltb_ge in H. lia.
Qed.

Lemma round_div_lt a a' b :
  (0 < b)%Z -> (a + b < a')%Z -> (round_div a b < round_div a' b)%Z.
Proof.
  intros Hb Hlt.
  pose proof (round_div_bounds a b Hb). pose proof (round_div_bounds a' b Hb).
  nia.
Qed.

Lemma range_lookup k i :
  range k !! i = if decide (i < Z.to_nat k) then Some (Z.of_nat i) else None.
Proof.
  unfold range. rewrite list_lookup_fmap. case_decide as Hi.
  - by rewrite lookup_seq_lt.
  - by rewrite lookup_seq_ge by lia.
Qed.

Lemma StronglySorted_of_lookup {A} (R : A -> A -> Prop) l :
  (forall i j a b, i < j -> l !! i = Some a -> l !! j = Some b -> R a b) ->
  StronglySorted R l.
Proof.
  induction l as [|x l IH]; intros H; constructor.
  - apply IH. intros i j a b Hij Hi Hj. apply (H (S i) (S j)); [lia|done..].
  - apply Forall_forall. intros y [j Hj]%list_elem_of_lookup.
    apply (H 0 (S j)); [lia|done..].
Qed.

(** The index of rank [i] among [k] evenly spaced indices of [range(n)]. *)
Lemma evenly_spaced_lookup n k i :
  (2 <= k)%Z -> i < Z.to_nat k ->
  S3.evenly_spaced_indices n k !! i
  = Some (round_div (Z.of_nat i * (n - 1)) (k - 1)).
Proof.
  intros Hk Hi. unfold S3.evenly_spaced_indices.
  destruct (k =? 1)%Z eqn:Hk1; [apply Z.eqb_eq in Hk1; lia|].
  rewrite list_lookup_fmap, range_lookup. by case_decide.
Qed.

Lemma evenly_spaced_length n k :
  (1 <= k)%Z -> length (S3.evenly_spaced_indices n k) = Z.to_nat k.
Proof.
  intros Hk. unfold S3.evenly_spaced_indices.
  destruct (k =? 1)%Z eqn:Hk1.
  - apply Z.eqb_eq in Hk1 as ->. reflexivity.
  - unfold range. by rewrite !length_map, length_seq.
Qed.

Lemma evenly_spaced_increasing n k i j :
  (2 <= k <= n)%Z -> i < j -> j < Z.to_nat k ->
  (round_div (Z.of_nat i * (n - 1)) (k - 1)
   < round_div (Z.of_nat j * (n - 1)) (k - 1))%Z.
Proof.
  intros Hk Hij Hj.
  destruct (decide (n = k)) as [->|Hne].
  - rewrite !round_div_exact by lia. lia.
  - apply round_div_lt; [lia|]. nia.
Qed.

Lemma evenly_spaced_first n k :
  (2 <= k)%Z -> S3.evenly_spaced_indices n k !! 0 = Some 0%Z.
Proof.
  intros Hk. rewrite evenly_spaced_lookup by lia. f_equal.
  replace (Z.of_nat 0 * (n - 1))%Z with (0 * (k - 1))%Z by lia.
  apply round_div_exact. lia.
Qed.

Lemma evenly_spaced_last n k :
  (2 <= k)%Z ->
  S3.evenly_spaced_indices n k !! (Z.to_nat k - 1) = Some (n - 1)%Z.
Proof.
  intros Hk. rewrite evenly_spaced_lookup by lia. f_equal.
  replace (Z.of_nat (Z.to_nat k - 1) * (n - 1))%Z with ((n - 1) * (k - 1))%Z by lia.
  apply round_div_exact. lia.
Qed.

Lemma evenly_spaced_sorted n k :
  (2 <= k <= n)%Z -> StronglySorted Z.lt (S3.evenly_spaced_indices n k).
Proof.
  intros Hk. apply StronglySorted_of_lookup. intros i j a b Hij Hi Hj.
  pose proof (lookup_lt_Some _ _ _ Hj) as Hlj.
  rewrite evenly_spaced_length in Hlj by lia.
  rewrite evenly_spaced_lookup in Hi, Hj by lia.
  injection Hi as <-. injection Hj as <-.
  apply evenly_spaced_increasing; lia.
Qed.

Lemma evenly_spaced_in_range n k :
  (2 <= k <= n)%Z ->
  Forall (fun i => 0 <= i < n)%Z (S3.evenly_spaced_indices n k).
Proof.
  intros Hk. pose proof (evenly_spaced_sorted n k Hk) as Hsorted.
  pose proof (evenly_spaced_first n k ltac:(lia)) as Hfirst.
  pose proof (evenly_spaced_last n k ltac:(lia)) as Hlast.
  apply Forall_forall. intros x [i Hi]%list_elem_of_lookup.
  pose proof (lookup_lt_Some _ _ _ Hi) as Hli.
  rewrite evenly_spaced_length in Hli by lia.
  split.
  - destruct (decide (i = 0)) as [->|Hi0];
      [rewrite Hfirst in Hi; by injection Hi as <-|].
    pose proof (StronglySorted_lookup _ _ 0 i _ _ Hsorted ltac:(lia) Hfirst Hi).
    lia.
  - destruct (decide (i = Z.to_nat k - 1)) as [->|Hil].
    { rewrite Hlast in Hi. injection Hi as <-. lia. }
    pose proof (StronglySorted_lookup _ _ i (Z.to_nat k - 1) _ _ Hsorted
                  ltac:(lia) Hi Hlast).
    lia.
Qed.

(** X1. For [1 <= k <= n], at the sizes at which the rounded float
    division is the rounded exact quotient ([(k - 1) * (n - 1) < 2^52]),
    [evenly_spaced_indices(n, k)] is a list of [k] strictly increasing
    indices of [range(n)] that starts at 0 and, when [k >= 2], ends at
    [n - 1]. *)
Theorem evenly_spaced_indices_shape (n k : Z) :
  (1 <= k <= n)%Z ->
  ((k - 1) * (n - 1) < 2 ^ 52)%Z ->
  length (S3.evenly_spaced_indices n k) = Z.to_nat k
  /\ StronglySorted Z.lt (S3.evenly_spaced_indices n k)
  /\ Forall (fun i => 0 <= i < n)%Z (S3.evenly_spaced_indices n k)
  /\ head (S3.evenly_spaced_indices n k) = Some 0%Z
  /\ ((2 <= k)%Z -> last (S3.evenly_spaced_indices n k) = Some (n - 1)%Z).
Proof.
  intros Hk _. split; [apply evenly_spaced_length; lia|].
  destruct (decide (k = 1%Z)) as [->|Hk1].
  { cbn. split; [repeat constructor|]. split; [repeat constructor; lia|].
    split; [reflexivity|lia]. }
  split; [apply evenly_spaced_sorted; lia|].
  split; [apply evenly_spaced_in_range; lia|]. split.
  - rewrite head_lookup. apply evenly_spaced_first. lia.
  - intros _. rewrite last_lookup, evenly_spaced_length by lia.
    replace (Init.Nat.pred (Z.to_nat k)) with (Z.to_nat k - 1) by lia.
    apply evenly_spaced_last. lia.
Qed.

Lemma evenly_spaced_indices_shape_witness :
  length (S3.evenly_spaced_indices 10 5) = 5
  /\ last (S3.evenly_spaced_indices 10 5) = Some 9%Z.
Proof.
  destruct (evenly_spaced_indices_shape 10 5 ltac:(lia) ltac:(lia))
    as (Hlen & _ & _ & _ & Hlast).
  split; [exact Hlen|]. apply Hlast. lia.
Defined.

(** *** Subscripting with the chosen indices *)

Lemma sublist_of_lookups {A} (l : list A) (idx : list nat) (ds : list A) :
  Forall2 (fun i d => l !! i = Some d) idx ds ->
  StronglySorted lt idx ->
  sublist ds l.
Proof.
  revert idx ds. induction l as [|x l IH]; intros idx ds Hlook Hsorted.
  - destruct Hlook as [|i d idx ds Hi _]; [constructor|discriminate].
  - destruct Hlook as [|i d idx ds Hi Hrest]; [apply sublist_nil_l|].
    inversion Hsorted as [|? ? Hs Hall]; subst.
    assert (Hshift : forall js es,
               Forall2 (fun i d => (x :: l) !! i = Some d) js es ->
               Forall (fun j => 0 < j) js ->
               Forall2 (fun i d => l !! i = Some d) (map Nat.pred js) es).
    { intros js es H. induction H as [|j e js es Hj _ IHjs]; intros Hpos; [constructor|].
      apply Forall_cons in Hpos as [Hj0 Hpos]. cbn. constructor; [|by apply IHjs].
      destruct j; [lia|]. exact Hj. }
    assert (Hpred : forall js, StronglySorted lt js -> Forall (fun j => 0 < j) js ->
                               StronglySorted lt (map Nat.pred js)).
    { intros js Hjs. induction Hjs as [|j js Hjs IHjs Hj]; intros Hpos; [constructor|].
      apply Forall_cons in Hpos as [Hj0 Hpos]. cbn. constructor; [by apply IHjs|].
      rewrite Forall_forall in Hj, Hpos. apply Forall_forall.
      intros y' [y [-> Hy]]%list_elem_of_fmap.
      specialize (Hj _ Hy). specialize (Hpos _ Hy). cbn in Hpos. lia. }
    destruct i as [|i].
    + injection Hi as ->. apply sublist_skip.
      assert (Hpos : Forall (fun j => 0 < j) idx)
        by (eapply Forall_impl; [exact Hall|]; cbn; intros; lia).
      apply (IH (map Nat.pred idx)); [by apply Hshift|by apply Hpred].
    + apply sublist_cons.
      assert (Hpos : Forall (fun j => 0 < j) (S i :: idx)).
      { constructor; [lia|]. eapply Forall_impl; [exact Hall|]. cbn. intros. lia. }
      apply (IH (map Nat.pred (S i :: idx))).
      * apply Hshift; [by constructor|exact Hpos].
      * by apply Hpred.
Qed.

Lemma getitems_in_range {A} (days : list A) (indices : list Z) :
  Forall (fun i => 0 <= i < Z.of_nat (length days))%Z indices ->
  exists ds, S3.getitems days indices = Some ds
             /\ Forall2 (fun i d => days !! i = Some d) (map Z.to_nat indices) ds.
Proof.
  induction 1 as [|i indices Hi _ (ds & Hds & Hlook)]; cbn.
  - exists []. split; [reflexivity|constructor].
  - unfold getitem. destruct (0 <=? i)%Z eqn:H0; [|apply Z.leb_gt in H0; lia].
    destruct (lookup_lt_is_Some_2 days (Z.to_nat i) ltac:(lia)) as [d Hd].
    rewrite Hd, Hds. exists (d :: ds). split; [reflexivity|by constructor].
Qed.

Lemma to_nat_sorted (indices : list Z) :
  Forall (fun i => 0 <= i)%Z indices ->
  StronglySorted Z.lt indices -> StronglySorted lt (map Z.to_nat indices).
Proof.
  intros Hpos Hs. induction Hs as [|i l Hs IH Hi]; [constructor|].
  apply Forall_cons in Hpos as [Hi0 Hpos]. cbn. constructor; [by apply IH|].
  rewrite Forall_forall in Hi, Hpos. apply Forall_forall.
  intros y' [y [-> Hy]]%list_elem_of_fmap.
  specialize (Hi _ Hy). specialize (Hpos _ Hy). cbn in Hpos. lia.
Qed.

(** X2. Picking [num_days] days out of fewer than [2^26] never raises
    [IndexError]: it yields [min(num_days, len(days))] days (none when that
    is not positive), which are days of the list in their original order,
    each position taken once, beginning with the first day and, when two or
    more are picked, ending with the last. *)
Theorem select_days_spec {A} (days : list A) (num_days : Z) :
  (Z.of_nat (length days) < 2 ^ 26)%Z ->
  exists ds,
    S3.select_days days num_days = Some ds
    /\ length ds = Z.to_nat (Z.min num_days (Z.of_nat (length days)))
    /\ sublist ds days
    /\ ((1 <= num_days)%Z -> days <> [] -> head ds = head days)
    /\ ((2 <= num_days)%Z -> 2 <= length days -> last ds = last days).
Proof.
  intros _. unfold S3.select_days.
  set (n := Z.of_nat (length days)). set (k := Z.min num_days n).
  destruct (decide (k <= 0)%Z) as [Hk0|Hk0].
  - assert (Hnil : S3.evenly_spaced_indices n k = []).
    { unfold S3.evenly_spaced_indices, range.
      destruct (k =? 1)%Z eqn:Hk1; [apply Z.eqb_eq in Hk1; lia|].
      by replace (Z.to_nat k) with 0 by lia. }
    rewrite Hnil. exists []. cbn.
    split; [reflexivity|]. split; [lia|]. split; [apply sublist_nil_l|].
    split.
    + intros Hnum Hne. destruct days; [done|]. cbn in n. lia.
    + intros Hnum Hlen. lia.
  - destruct (decide (k = 1%Z)) as [Hk1|Hk1].
    + rewrite Hk1. destruct days as [|d days]; [cbn in n; lia|].
      exists [d]. cbn. split; [reflexivity|]. split; [lia|].
      split; [apply sublist_skip, sublist_nil_l|]. split; [done|].
      intros Hnum Hlen. cbn in n. lia.
    + assert (Hk : (2 <= k <= n)%Z) by lia.
      pose proof (evenly_spaced_in_range n k Hk) as Hrange.
      destruct (getitems_in_range days _ Hrange) as (ds & Hds & Hlook).
      exists ds. split; [exact Hds|].
      assert (Hlen : length ds = Z.to_nat k).
      { apply Forall2_length in Hlook.
        by rewrite <- Hlook, length_map, evenly_spaced_length by lia. }
      split; [exact Hlen|]. split.
      { eapply sublist_of_lookups; [exact Hlook|].
        apply to_nat_sorted; [|by apply evenly_spaced_sorted].
        eapply Forall_impl; [exact Hrange|]. cbn. intros; lia. }
      assert (Hat : forall i z, S3.evenly_spaced_indices n k !! i = Some z ->
                                ds !! i = days !! Z.to_nat z).
      { intros i z Hi.
        destruct (Forall2_lookup_l _ _ _ i (Z.to_nat z) Hlook) as (d & Hd & Hdays).
        - by rewrite list_lookup_fmap, Hi.
        - by rewrite Hd, Hdays. }
      split.
      * intros _ _. rewrite !head_lookup.
        by rewrite (Hat 0 0%Z (evenly_spaced_first n k ltac:(lia))).
      * intros _ _. rewrite !last_lookup, Hlen.
        replace (Init.Nat.pred (Z.to_nat k)) with (Z.to_nat k - 1) by lia.
        rewrite (Hat _ _ (evenly_spaced_last n k ltac:(lia))).
        f_equal. lia.
Qed.

Lemma select_days_spec_witness :
  exists ds, S3.select_days ["d1"; "d2"; "d3"; "d4"; "d5"; "d6"; "d7"] 5 = Some ds
             /\ head ds = Some "d1" /\ last ds = Some "d7".
Proof.
  destruct (select_days_spec ["d1"; "d2"; "d3"; "d4"; "d5"; "d6"; "d7"] 5
              ltac:(cbn; lia))
    as (ds & Hds & _ & _ & Hhead & Hlast).
  exists ds. split; [exact Hds|]. split.
  - apply Hhead; [lia|discriminate].
  - apply Hlast; [lia|cbn; lia].
Defined.

(** ** View counts of one day *)

Lemma view_counts_cons_skip v videos :
  Spec.no_view_count v ->
  S3.get_youtube_view_counts_for_day (v :: videos)
  = S3.get_youtube_view_counts_for_day videos.
Proof.
  intros (d & st & -> & Hst & Hvc). cbn. rewrite Hst. cbn.
  destruct (default JNull (assoc "viewCount" st)) as [| | |s| |]; try done.
  cbn. by rewrite Hvc.
Qed.

Lemma view_counts_cons_keep v n videos :
  Spec.has_view_count v n ->
  S3.get_youtube_view_counts_for_day (v :: videos)
  = (views ← S3.get_youtube_view_counts_for_day videos; Ok (n :: views)).
Proof.
  intros (d & st & x & -> & Hst & Hx & Hnull & Hint & _). cbn. rewrite Hst. cbn.
  rewrite Hx. cbn. destruct x; try done; by rewrite Hint.
Qed.

Lemma view_counts_cons_eq v videos videos' :
  S3.get_youtube_view_counts_for_day videos
  = S3.get_youtube_view_counts_for_day videos' ->
  S3.get_youtube_view_counts_for_day (v :: videos)
  = S3.get_youtube_view_counts_for_day (v :: videos').
Proof. intros H. cbn. by rewrite H. Qed.

Lemma get_raises x k dflt e : get x k dflt = Raise e -> e = AttributeError.
Proof. destruct x; cbn; by intros [= <-]. Qed.

Lemma py_int_raises x e : py_int x = Raise e -> e = ValueError \/ e = TypeError.
Proof.
  destruct x as [| | |s| |]; cbn; try (intros [= <-]; by right); try discriminate.
  destruct (int_of_str s); [discriminate|]. intros [= <-]. by left.
Qed.





(** ** The Spotify archive *)

Lemma str_ltb_irrefl a : str_ltb a a = false.
Proof.
  destruct (str_ltb a a) eqn:H; [|reflexivity].
  pose proof (str_ltb_asym a a H). congruence.
Qed.

(** The first element of a sorted list is a least element of the list. *)
Lemma sorted_head_least (l : list string) c0 c :
  c ∈ l -> after str_ltb (hd c0 (sorted str_ltb l)) c.
Proof.
  intros Hc. pose proof (sorted_sorted str_ltb str_ltb_asym str_after_trans l) as Hs.
  rewrite <- (sorted_perm str_ltb) in Hc.
  destruct (sorted str_ltb l) as [|h t]; [by apply elem_of_nil in Hc|].
  cbn. inversion Hs as [|? ? _ Hall]; subst.
  apply elem_of_cons in Hc as [->|Hc].
  - apply str_ltb_irrefl.
  - rewrite Forall_forall in Hall. by apply Hall.
Qed.

Lemma sorted_head_elem (l : list string) c0 :
  l <> [] -> hd c0 (sorted str_ltb l) ∈ l.
Proof.
  intros Hl. rewrite <- (sorted_perm str_ltb l) at 2.
  pose proof (sorted_length str_ltb l) as Hlen.
  destruct (sorted str_ltb l) as [|h t]; [destruct l; [done|discriminate]|].
  by left.
Qed.

(** X5. [_pick_spotify_file_for_date] raises [FileNotFoundError] exactly
    when no file name contains the date; otherwise it returns one of the
    files whose base name contains the date: one with "_1800_" in its name
    if there is one, else the least such file name. *)
Theorem pick_spotify_file_prefers_1800 (files : list string) (date_str : string) :
  let candidate f := f ∈ files /\ Spec.contains (basename f) date_str in
  ((forall f, ~ candidate f) ->
   S3._pick_spotify_file_for_date files date_str = Raise FileNotFoundError)
  /\ (forall f, candidate f ->
        exists c,
          S3._pick_spotify_file_for_date files date_str = Ok c
          /\ candidate c
          /\ ((exists c', candidate c' /\ Spec.contains c' "_1800_") ->
              Spec.contains c "_1800_")
          /\ ((forall c', candidate c' -> ~ Spec.contains c' "_1800_") ->
              forall c', candidate c' -> after str_ltb c c')).
Proof.
  intros candidate. unfold S3._pick_spotify_file_for_date.
  set (cands := List.filter (fun f => str_in date_str (basename f)) files).
  assert (Hcand : forall f, f ∈ cands <-> candidate f).
  { intros f. unfold cands, candidate.
    by rewrite elem_of_filter_names, str_in_spec. }
  split.
  - intros Hnone. destruct cands as [|c0 cs] eqn:Hc; [reflexivity|].
    destruct (Hnone c0). apply Hcand. by left.
  - intros f Hf. apply Hcand in Hf.
    destruct cands as [|c0 cs] eqn:Hc; [by apply elem_of_nil in Hf|].
    rewrite <- Hc in *. clear f Hf.
    destruct (List.find (fun c => str_in "_1800_" c) cands) as [c|] eqn:Hfind.
    + apply find_some in Hfind as [Hin H1800].
      exists c. split; [reflexivity|].
      split; [by apply Hcand, list_elem_of_In|].
      split; [intros _; by apply str_in_spec|].
      intros Hno. destruct (Hno c); [by apply Hcand, list_elem_of_In|].
      by apply str_in_spec.
    + exists (hd c0 (sorted str_ltb cands)). split; [reflexivity|].
      split; [apply Hcand, sorted_head_elem; by rewrite Hc|].
      split.
      * intros (c' & Hc' & H1800). apply Hcand, list_elem_of_In in Hc'.
        apply str_in_spec in H1800.
        pose proof (find_none _ _ Hfind c' Hc') as Hf. cbn in Hf. congruence.
      * intros _ c' Hc'. by apply sorted_head_least, Hcand.
Qed.

Lemma pick_spotify_file_prefers_1800_witness :
  exists c,
    S3._pick_spotify_file_for_date
      ["20151109_1328_sp.json"; "20151109_1800_sp.json"; "20151110_1800_sp.json"]
      "20151109"
    = Ok c
    /\ Spec.contains c "_1800_".
Proof.
  destruct (proj2 (pick_spotify_file_prefers_1800
                     ["20151109_1328_sp.json"; "20151109_1800_sp.json";
                      "20151110_1800_sp.json"] "20151109")
              "20151109_1328_sp.json")
    as (c & Hc & _ & H1800 & _).
  - split; [set_solver|]. apply str_in_spec. reflexivity.
  - exists c. split; [exact Hc|]. apply H1800.
    exists "20151109_1800_sp.json". split; [split|].
    + set_solver.
    + apply str_in_spec. reflexivity.
    + apply str_in_spec. reflexivity.
Defined.

Lemma split_head_prefix sep s :
  exists rest, s = (split_head sep s ++ rest)%string.
Proof.
  unfold split_head. induction s as [|c s [rest IH]]; cbn.
  - by exists EmptyString.
  - destruct (Ascii.eqb c sep); cbn; [by exists (String c s)|].
    destruct (split sep s) as [|p ps]; cbn in *.
    + by exists s.
    + exists rest. by rewrite IH at 1.
Qed.

Lemma date_token_in_basename f : Spec.contains (basename f) (S3.date_token f).
Proof.
  unfold S3.date_token. destruct (split_head_prefix "_" (basename f)) as [rest H].
  by exists EmptyString, rest.
Qed.

(** The date strings [iter_spotify_days] loops over. *)
Lemma spotify_dates_elem (files : list string) tok :
  tok ∈ sorted str_ltb (sorted str_ltb
          (elements (list_to_set (map S3.date_token files) : gset string)))
  <-> exists f, f ∈ files /\ S3.date_token f = tok.
Proof.
  rewrite !(sorted_perm str_ltb), elem_of_elements, elem_of_list_to_set,
    list_elem_of_fmap.
  split; intros (f & H1 & H2); exists f; by split.
Qed.

(** The loop body succeeds up to the parsing of the date. *)
Lemma spotify_day_file (z : archive (list S3.sp_item)) tok :
  let files := sorted str_ltb (List.filter S3.is_json (namelist z)) in
  (exists f, f ∈ files /\ S3.date_token f = tok) ->
  exists fname items,
    S3._pick_spotify_file_for_date files tok = Ok fname
    /\ fname ∈ List.filter S3.is_json (namelist z)
    /\ Spec.contains (basename fname) tok
    /\ zread z fname = Ok items.
Proof.
  intros files (f & Hf & Htok).
  unfold S3._pick_spotify_file_for_date.
  set (cands := List.filter (fun f => str_in tok (basename f)) files).
  assert (Hcand : forall c, c ∈ cands ->
             c ∈ List.filter S3.is_json (namelist z)
             /\ Spec.contains (basename c) tok).
  { intros c [Hc Hin]%elem_of_filter_names. unfold files in Hc.
    rewrite (sorted_perm str_ltb) in Hc. split; [exact Hc|by apply str_in_spec]. }
  assert (Hfc : f ∈ cands).
  { apply elem_of_filter_names. split; [exact Hf|].
    apply str_in_spec. rewrite <- Htok. apply date_token_in_basename. }
  assert (Hres : exists c, match cands with
                           | [] => Raise FileNotFoundError
                           | c0 :: _ =>
                               match List.find (fun c => str_in "_1800_" c) cands with
                               | Some c => Ok c
                               | None => Ok (hd c0 (sorted str_ltb cands))
                               end
                           end = Ok c /\ c ∈ cands).
  { destruct cands as [|c0 cs] eqn:Hc; [by apply elem_of_nil in Hfc|].
    rewrite <- Hc.
    destruct (List.find _ cands) as [c|] eqn:Hfind.
    - exists c. split; [reflexivity|]. apply find_some in Hfind as [Hin _].
      by apply list_elem_of_In.
    - eexists. split; [reflexivity|]. apply sorted_head_elem. by rewrite Hc. }
  destruct Hres as (c & Hpick & Hc). destruct (Hcand c Hc) as [Hjson Hcont].
  apply elem_of_filter_names in Hjson as Hname. destruct Hname as [Hname _].
  destruct (zread_Some z c Hname) as (items & Hitems & _).
  exists c, items. by repeat split.
Qed.

Lemma iter_spotify_days_eq (z : archive (list S3.sp_item)) :
  S3.iter_spotify_days (Some z)
  = let files := sorted str_ltb (List.filter S3.is_json (namelist z)) in
    mapM (fun date_str =>
            fname ← S3._pick_spotify_file_for_date files date_str;
            items ← zread z fname;
            date ← strptime_Ymd date_str;
            Ok (date, S3.tracks_of_items items))
         (sorted str_ltb (sorted str_ltb
            (elements (list_to_set (map S3.date_token files) : gset string)))).
Proof. reflexivity. Qed.

(** X6. On an existing archive of playlist payloads [iter_spotify_days]
    can only fail on a date token that does not parse: for every date it
    loops over there is a file to pick and to read, so neither the
    [FileNotFoundError] of [_pick_spotify_file_for_date] nor the [KeyError]
    of [z.read] arises; when all tokens parse it yields the days. *)
Theorem iter_spotify_days_only_value_error (z : archive (list S3.sp_item)) :
  (forall e, S3.iter_spotify_days (Some z) = Raise e -> e = ValueError)
  /\ ((forall f, f ∈ List.filter S3.is_json (namelist z) ->
                 is_ok (strptime_Ymd (S3.date_token f)) = true) ->
      exists days, S3.iter_spotify_days (Some z) = Ok days).
Proof.
  rewrite iter_spotify_days_eq. cbn zeta.
  set (files := sorted str_ltb (List.filter S3.is_json (namelist z))).
  set (dates := sorted str_ltb (sorted str_ltb (elements _))).
  set (body := fun date_str : string => _).
  assert (Hbody : forall tok, tok ∈ dates ->
             exists items,
               body tok = (date ← strptime_Ymd tok;
                           Ok (date, S3.tracks_of_items items))).
  { intros tok Htok. apply spotify_dates_elem in Htok.
    destruct (spotify_day_file z tok Htok) as (fname & items & Hpick & _ & _ & Hread).
    exists items. unfold body, files. cbn in Hpick. rewrite Hpick. cbn. by rewrite Hread. }
  split.
  - intros e Hraise.
    assert (Hall : forall l, (forall tok, tok ∈ l -> tok ∈ dates) ->
                             mapM body l = Raise e -> e = ValueError).
    { clear Hraise. induction l as [|tok l IH]; intros Hl; cbn; [discriminate|].
      destruct (Hbody tok) as [items ->]; [apply Hl; by left|].
      destruct (strptime_Ymd tok) as [d|e'] eqn:Hd; cbn.
      - destruct (mapM body l) eqn:Hm; cbn; [discriminate|].
        intros [= <-]. apply IH; [|reflexivity]. intros t Ht. apply Hl. by right.
      - intros [= <-]. by eapply strptime_raises. }
    by apply (Hall dates).
  - intros Hparse. apply mapM_all_Ok. apply Forall_forall. intros tok Htok.
    destruct (Hbody tok Htok) as [items ->].
    apply spotify_dates_elem in Htok as (f & Hf & <-).
    unfold files in Hf. rewrite (sorted_perm str_ltb) in Hf.
    specialize (Hparse f Hf). by destruct (strptime_Ymd (S3.date_token f)).
Qed.

Lemma iter_spotify_days_only_value_error_witness :
  exists days,
    S3.iter_spotify_days
      (Some [("20151109_1328_sp.json", [S3.SpItem "a" "A" ["X"]]);
             ("20151109_1800_sp.json", [S3.SpItem "b" "B" ["Y"]])])
    = Ok days.
Proof.
  apply (proj2 (iter_spotify_days_only_value_error _)).
  intros f Hf. cbn in Hf.
  apply elem_of_cons in Hf as [->|Hf]; [reflexivity|].
  apply list_elem_of_singleton in Hf as ->. reflexivity.
Defined.

Lemma tracks_of_items_positions items :
  map S3.t_position (S3.tracks_of_items items) = seq 1 (length items).
Proof.
  unfold S3.tracks_of_items. rewrite map_map, <- (enumerate_fst 1 items).
  apply map_ext. by intros [pos t].
Qed.

Lemma tracks_of_items_ids items :
  map S3.t_id (S3.tracks_of_items items) = map S3.i_id items.
Proof.
  unfold S3.tracks_of_items. rewrite map_map.
  rewrite <- (enumerate_snd 1 items) at 2. rewrite map_map.
  apply map_ext. by intros [pos t].
Qed.

(** X7. When [iter_spotify_days] succeeds it yields one day for each
    distinct date token of the JSON members, in ascending order of the
    tokens; the tracks of a day are those of one member whose base name
    contains the token, with positions 1, 2, ... in playlist order. *)
Theorem iter_spotify_days_one_day_per_token
    (z : archive (list S3.sp_item)) (days : list (date * list S3.track)) :
  S3.iter_spotify_days (Some z) = Ok days ->
  exists dates,
    NoDup dates
    /\ StronglySorted (after str_ltb) dates
    /\ (forall tok, tok ∈ dates <->
          exists f, f ∈ List.filter S3.is_json (namelist z)
                    /\ S3.date_token f = tok)
    /\ Forall2 (fun tok day =>
                  strptime_Ymd tok = Ok day.1
                  /\ exists fname items,
                       fname ∈ List.filter S3.is_json (namelist z)
                       /\ Spec.contains (basename fname) tok
                       /\ zread z fname = Ok items
                       /\ map S3.t_id day.2 = map S3.i_id items
                       /\ map S3.t_position day.2 = seq 1 (length items))
               dates days.
Proof.
  rewrite iter_spotify_days_eq. cbn zeta.
  set (files := sorted str_ltb (List.filter S3.is_json (namelist z))).
  set (dates := sorted str_ltb (sorted str_ltb (elements _))).
  intros Hdays. exists dates.
  assert (Helem : forall tok, tok ∈ dates <->
            exists f, f ∈ List.filter S3.is_json (namelist z)
                      /\ S3.date_token f = tok).
  { intros tok. unfold dates. rewrite spotify_dates_elem.
    split; intros (f & Hf & Htok); exists f; (split; [|exact Htok]).
    - unfold files in Hf. by rewrite (sorted_perm str_ltb) in Hf.
    - unfold files. by rewrite (sorted_perm str_ltb). }
  split; [|split; [|split; [exact Helem|]]].
  - unfold dates. rewrite !(sorted_perm str_ltb). apply NoDup_elements.
  - apply sorted_sorted; [apply str_ltb_asym|apply str_after_trans].
  - apply mapM_Ok_Forall2 in Hdays.
    apply Forall2_same_length_lookup. split; [by eapply Forall2_length|].
    intros i tok [d tracks] Htok Hday.
    pose proof (Forall2_lookup_lr _ _ _ _ _ _ Hdays Htok Hday) as Hbody.
    cbn in Hbody.
    assert (Hin : exists f, f ∈ files /\ S3.date_token f = tok).
    { apply (spotify_dates_elem files). eapply list_elem_of_lookup_2. exact Htok. }
    destruct (spotify_day_file z tok Hin) as (fname & items & Hpick & Hf & Hcont & Hread).
    cbn in Hpick. fold files in Hpick. rewrite Hpick in Hbody. cbn in Hbody.
    rewrite Hread in Hbody. cbn in Hbody.
    destruct (strptime_Ymd tok) as [d'|]; cbn in Hbody; [|discriminate].
    injection Hbody as -> <-. cbn. split; [reflexivity|].
    exists fname, items. split; [exact Hf|]. split; [exact Hcont|].
    split; [exact Hread|].
    split; [apply tracks_of_items_ids|apply tracks_of_items_positions].
Qed.

Lemma iter_spotify_days_one_day_per_token_witness :
  exists dates : list string,
    NoDup dates
    /\ Forall2 (fun tok day => strptime_Ymd tok = Ok day.1)
               dates
               [(Date 2015 11 9, [S3.Track "b" "B" "Y" 1])].
Proof.
  destruct (iter_spotify_days_one_day_per_token
              [("20151109_1328_sp.json", [S3.SpItem "a" "A" ["X"]]);
               ("20151109_1800_sp.json", [S3.SpItem "b" "B" ["Y"]])]
              [(Date 2015 11 9, [S3.Track "b" "B" "Y" 1])])
    as (dates & Hnd & _ & _ & Hdays); [reflexivity|].
  exists dates. split; [exact Hnd|].
  eapply Forall2_impl; [exact Hdays|]. by intros tok day [Hd _].
Defined.

(** ** Artist tokens *)

Lemma append_assoc (a b c : string) : ((a ++ b) ++ c)%string = (a ++ b ++ c)%string.
Proof.
  induction a as [|x a IH]; [reflexivity|]. by rewrite !append_cons, IH.
Qed.

Lemma no_comma_cons c n :
  str_in "," (String c n) = false <-> c <> ","%char /\ str_in "," n = false.
Proof.
  cbn [str_in startswith]. rewrite orb_false_iff.
  assert (Hs : startswith n EmptyString = true) by (by destruct n).
  rewrite Hs, andb_true_r. split; intros [Hc Hn]; (split; [|exact Hn]).
  - intros ->. discriminate.
  - destruct (Ascii.eqb_spec "," c); [by subst|reflexivity].
Qed.

Lemma no_comma_app a b :
  str_in "," a = false -> str_in "," b = false -> str_in "," (a ++ b) = false.
Proof.
  intros Ha Hb. induction a as [|c a IH]; [exact Hb|].
  apply no_comma_cons in Ha as [Hc Ha]. change (String c a ++ b)%string
    with (String c (a ++ b)%string).
  apply no_comma_cons. split; [exact Hc|by apply IH].
Qed.

Lemma split_no_comma n : str_in "," n = false -> split "," n = [n].
Proof.
  induction n as [|c n IH]; [reflexivity|].
  intros [Hc Hn]%no_comma_cons. cbn [split].
  destruct (Ascii.eqb_spec c ","); [done|]. by rewrite IH.
Qed.

Lemma split_at_comma a b :
  str_in "," a = false ->
  split "," (a ++ String "," b) = a :: split "," b.
Proof.
  induction a as [|c a IH]; [reflexivity|].
  intros [Hc Ha]%no_comma_cons.
  change (String c a ++ String "," b)%string with (String c (a ++ String "," b)%string).
  cbn [split]. destruct (Ascii.eqb_spec c ","); [done|]. by rewrite IH.
Qed.

Lemma split_join pre names n :
  Forall (fun m => str_in "," m = false) (n :: names) ->
  str_in "," pre = false ->
  split "," (pre ++ join ", " (n :: names))
  = (pre ++ n)%string :: map (fun m => (" " ++ m)%string) names.
Proof.
  revert pre n. induction names as [|n2 names IH]; intros pre n Hall Hpre.
  - cbn. apply split_no_comma, no_comma_app; [exact Hpre|].
    by inversion Hall.
  - inversion Hall as [|? ? Hn Hrest]; subst.
    change (join ", " (n :: n2 :: names))
      with (n ++ String "," (" " ++ join ", " (n2 :: names)))%string.
    rewrite <- append_assoc, split_at_comma by by apply no_comma_app.
    rewrite (IH " " n2 Hrest eq_refl). reflexivity.
Qed.

Lemma strip_leading_space m : strip (" " ++ m) = strip m.
Proof. reflexivity. Qed.

Lemma first_pass_no_artist name videos :
  S3.first_pass name [EmptyString] videos = S3.second_pass name videos.
Proof.
  induction videos as [|v videos IH]; [reflexivity|].
  cbn [S3.first_pass S3.second_pass]. unfold S3.strict, S3.relaxed.
  cbn [existsb].
  assert (He : str_in EmptyString (lower (S3.v_title v)) = true)
    by (by destruct (lower (S3.v_title v))).
  rewrite He, orb_true_l, andb_true_r, IH. reflexivity.
Qed.



(** ** Dictionaries with repeated keys *)

Section DictOfLast.
Context `{Countable K} {V : Type}.
Implicit Types (l : list (K * V)) (k : K) (v : V).

Lemma dict_of_lookup_None l k : dict_of l !! k = None <-> k ∉ map fst l.
Proof.
  rewrite <- not_elem_of_dom, dict_of_dom, elem_of_list_to_set. done.
Qed.

(** The value under a key is the one of its last pair. *)
Lemma dict_of_lookup_last l k v :
  dict_of l !! k = Some v <->
  exists l1 l2, l = l1 ++ (k, v) :: l2 /\ k ∉ map fst l2.
Proof.
  induction l as [|[k' v'] l IH] using rev_ind.
  - unfold dict_of. cbn. rewrite lookup_empty. split; [done|].
    intros (l1 & l2 & Hl & _). by destruct l1.
  - rewrite dict_of_snoc, lookup_insert. case_decide as Hk.
    + subst k'. split.
      * intros [= ->]. exists l, []. split; [reflexivity|]. cbn. set_solver.
      * intros (l1 & l2 & Hl & Hfresh).
        destruct l2 as [|p l2 _] using rev_ind.
        -- apply app_inj_tail in Hl as [_ Heq]. congruence.
        -- rewrite app_comm_cons, app_assoc in Hl.
           apply app_inj_tail in Hl as [_ <-].
           rewrite map_app in Hfresh. cbn in Hfresh. set_solver.
    + rewrite IH. split.
      * intros (l1 & l2 & -> & Hfresh). exists l1, (l2 ++ [(k', v')]).
        split; [by rewrite <- app_assoc|].
        rewrite map_app. cbn. set_solver.
      * intros (l1 & l2 & Hl & Hfresh).
        destruct l2 as [|p l2 _] using rev_ind.
        -- apply app_inj_tail in Hl as [_ Heq]. congruence.
        -- rewrite app_comm_cons, app_assoc in Hl.
           apply app_inj_tail in Hl as [-> <-].
           exists l1, l2. split; [reflexivity|].
           rewrite map_app in Hfresh. set_solver.
Qed.
End DictOfLast.

(** ** Least elements of sorted lists *)

Section SortedHead.
Context {A : Type} (lt : A -> A -> bool).
Hypothesis lt_asym : forall a b, lt a b = true -> lt b a = false.
Hypothesis after_trans : forall a b c, after lt a b -> after lt b c -> after lt a c.

Lemma sorted_hd_least (l : list A) h t x :
  sorted lt l = h :: t -> x ∈ l -> after lt h x.
Proof.
  intros Hs Hx. pose proof (sorted_sorted lt lt_asym after_trans l) as Hss.
  rewrite <- (sorted_perm lt), Hs in Hx. rewrite Hs in Hss.
  inversion Hss as [|? ? _ Hall]; subst.
  apply elem_of_cons in Hx as [->|Hx].
  - unfold after. destruct (lt h h) eqn:Hh; [|reflexivity].
    pose proof (lt_asym h h Hh). congruence.
  - rewrite Forall_forall in Hall. by apply Hall.
Qed.
End SortedHead.

Lemma date_ltb_true a b :
  date_ltb a b = true <->
  (year a < year b
   \/ (year a = year b
       /\ (month a < month b \/ (month a = month b /\ day a < day b)))).
Proof.
  unfold date_ltb.
  rewrite orb_true_iff, andb_true_iff, orb_true_iff, andb_true_iff,
    !Nat.ltb_lt, !Nat.eqb_eq.
  reflexivity.
Qed.

Lemma date_ltb_asym a b : date_ltb a b = true -> date_ltb b a = false.
Proof. rewrite date_ltb_true, date_ltb_false. lia. Qed.

Lemma date_after_trans a b c :
  after date_ltb a b -> after date_ltb b c -> after date_ltb a c.
Proof. unfold after. rewrite !date_ltb_false. lia. Qed.

(** ** The reference day *)

(** X9. When the two archives have a date in common, the mapping is the
    one of the track loop run on the earliest common date; when several
    days of an archive carry that date, the last of them is used. *)
Theorem mapping_uses_earliest_common_date
    (YOUTUBE_ZIP : option (archive (list S3.video)))
    (SPOTIFY_ZIP : option (archive (list S3.sp_item)))
    (yt_days : list (date * list S3.video))
    (sp_days : list (date * list S3.track)) :
  S3.iter_youtube_days YOUTUBE_ZIP = Ok yt_days ->
  S3.iter_spotify_days SPOTIFY_ZIP = Ok sp_days ->
  (exists d, d ∈ map fst yt_days /\ d ∈ map fst sp_days) ->
  exists ref_date yt_videos sp_tracks,
    S3._build_spotify_youtube_mapping YOUTUBE_ZIP SPOTIFY_ZIP
    = Ok (S3.match_tracks sp_tracks yt_videos)
    /\ (forall d, d ∈ map fst yt_days -> d ∈ map fst sp_days ->
                  date_leb ref_date d = true)
    /\ (exists pre post, yt_days = pre ++ (ref_date, yt_videos) :: post
                         /\ ref_date ∉ map fst post)
    /\ (exists pre post, sp_days = pre ++ (ref_date, sp_tracks) :: post
                         /\ ref_date ∉ map fst post).
Proof.
  intros Hyt Hsp (d0 & Hd0y & Hd0s).
  unfold S3._build_spotify_youtube_mapping. rewrite Hyt, Hsp. cbn.
  unfold S3.common_dates.
  set (common := elements (dom (dict_of yt_days) ∩ dom (dict_of sp_days))).
  assert (Hcommon : forall d, d ∈ common <-> d ∈ map fst yt_days /\ d ∈ map fst sp_days).
  { intros d. unfold common.
    by rewrite elem_of_elements, elem_of_intersection, !dict_of_dom,
      !elem_of_list_to_set. }
  destruct (sorted date_ltb common) as [|ref rest] eqn:Hsorted.
  { assert (Hin : d0 ∈ sorted date_ltb common)
      by (rewrite (sorted_perm date_ltb); by apply Hcommon).
    rewrite Hsorted in Hin. by apply elem_of_nil in Hin. }
  assert (Href : ref ∈ common).
  { rewrite <- (sorted_perm date_ltb), Hsorted. by left. }
  apply Hcommon in Href as [Hry Hrs].
  destruct (dict_of yt_days !! ref) as [yt_videos|] eqn:Hy;
    [|by apply dict_of_lookup_None in Hy].
  destruct (dict_of sp_days !! ref) as [sp_tracks|] eqn:Hs;
    [|by apply dict_of_lookup_None in Hs].
  exists ref, yt_videos, sp_tracks. unfold S3.dict_get. rewrite Hy, Hs. cbn.
  split; [reflexivity|]. split; [|split; by apply dict_of_lookup_last].
  intros d Hdy Hds. unfold date_leb.
  rewrite (sorted_hd_least date_ltb date_ltb_asym date_after_trans
             common ref rest d Hsorted); [reflexivity|].
  by apply Hcommon.
Qed.

Lemma mapping_uses_earliest_common_date_witness :
  exists ref_date yt_videos sp_tracks,
    S3._build_spotify_youtube_mapping
      (Some [("20151109_1800_data.json", [S3.Video "b1" "Adele - Hello" 9]);
             ("20151110_1800_data.json", [S3.Video "b2" "Other" 5])])
      (Some [("20151110_1800_sp.json", [S3.SpItem "a2" "Other" ["X"]]);
             ("20151109_1800_sp.json", [S3.SpItem "a1" "Hello" ["Adele"]])])
    = Ok (S3.match_tracks sp_tracks yt_videos)
    /\ date_leb ref_date (Date 2015 11 10) = true.
Proof.
  destruct (mapping_uses_earliest_common_date
              (Some [("20151109_1800_data.json", [S3.Video "b1" "Adele - Hello" 9]);
                     ("20151110_1800_data.json", [S3.Video "b2" "Other" 5])])
              (Some [("20151110_1800_sp.json", [S3.SpItem "a2" "Other" ["X"]]);
                     ("20151109_1800_sp.json", [S3.SpItem "a1" "Hello" ["Adele"]])])
              [(Date 2015 11 9, [S3.Video "b1" "Adele - Hello" 9]);
               (Date 2015 11 10, [S3.Video "b2" "Other" 5])]
              [(Date 2015 11 9, [S3.Track "a1" "Hello" "Adele" 1]);
               (Date 2015 11 10, [S3.Track "a2" "Other" "X" 1])])
    as (ref & vids & tracks & Hbuild & Hmin & _).
  - vm_compute. reflexivity.
  - vm_compute. reflexivity.
  - exists (Date 2015 11 10). cbn [map fst]. split; right; left.
  - exists ref, vids, tracks. split; [exact Hbuild|].
    apply Hmin; cbn [map fst]; right; left.
Defined.

(** ** Entries of the mapping *)

Lemma best_yt_id_Some t yt_videos b :
  S3.best_yt_id t yt_videos = Some b ->
  exists v, v ∈ yt_videos /\ S3.v_id v = b /\ Spec.relaxed_match t v.
Proof.
  unfold S3.best_yt_id.
  pose proof (first_pass_spec t yt_videos) as H1.
  pose proof (second_pass_spec t yt_videos) as H2.
  destruct (S3.first_pass _ _ yt_videos) as [b1|].
  - intros [= <-]. destruct H1 as (v & (pre & post & -> & _ & [Hv _]) & ->).
    exists v. split; [set_solver|]. by split.
  - intros Hb. rewrite Hb in H2.
    destruct H2 as (v & (pre & post & -> & _ & Hv) & ->).
    exists v. split; [set_solver|]. by split.
Qed.

Lemma best_yt_id_None t yt_videos :
  S3.best_yt_id t yt_videos = None <->
  forall v, v ∈ yt_videos -> ~ Spec.relaxed_match t v.
Proof.
  split.
  - unfold S3.best_yt_id.
    pose proof (second_pass_spec t yt_videos) as H2.
    destruct (S3.first_pass _ _ yt_videos); [discriminate|].
    intros Hb. rewrite Hb in H2. by apply Forall_forall.
  - intros Hno. destruct (S3.best_yt_id t yt_videos) as [b|] eqn:Hb; [|reflexivity].
    apply best_yt_id_Some in Hb as (v & Hv & _ & Hm). destruct (Hno v Hv Hm).
Qed.

Lemma match_tracks_lookup_Some sp_tracks yt_videos i b :
  S3.match_tracks sp_tracks yt_videos !! i = Some b ->
  exists t, t ∈ sp_tracks /\ S3.t_id t = i /\ S3.best_yt_id t yt_videos = Some b.
Proof.
  induction sp_tracks as [|t l IH] using rev_ind.
  - unfold S3.match_tracks. cbn. by rewrite lookup_empty.
  - rewrite match_tracks_snoc.
    destruct (S3.best_yt_id t yt_videos) as [b'|] eqn:Hb.
    + rewrite lookup_insert. case_decide as Hi.
      * intros [= ->]. exists t. split; [set_solver|]. by split.
      * intros (t' & Ht' & Hid & Hbest)%IH. exists t'. split; [set_solver|]. by split.
    + intros (t' & Ht' & Hid & Hbest)%IH. exists t'. split; [set_solver|]. by split.
Qed.

Lemma match_tracks_lookup_None sp_tracks yt_videos i :
  S3.match_tracks sp_tracks yt_videos !! i = None <->
  forall t, t ∈ sp_tracks -> S3.t_id t = i -> S3.best_yt_id t yt_videos = None.
Proof.
  induction sp_tracks as [|t l IH] using rev_ind.
  - unfold S3.match_tracks. cbn. rewrite lookup_empty. split; [|done].
    intros _ t Ht. by apply elem_of_nil in Ht.
  - rewrite match_tracks_snoc.
    destruct (S3.best_yt_id t yt_videos) as [b'|] eqn:Hb.
    + rewrite lookup_insert. case_decide as Hi.
      * split; [discriminate|]. intros Hall.
        rewrite (Hall t) in Hb; [discriminate|set_solver|done].
      * rewrite IH. split.
        -- intros Hall t' [Ht'|Ht']%elem_of_app Hid; [by apply Hall|].
           apply list_elem_of_singleton in Ht' as ->. done.
        -- intros Hall t' Ht'. apply Hall. set_solver.
    + rewrite IH. split.
      * intros Hall t' [Ht'|Ht']%elem_of_app Hid; [by apply Hall|].
        apply list_elem_of_singleton in Ht' as ->. done.
      * intros Hall t' Ht'. apply Hall. set_solver.
Qed.



(** ** The rank table with repeated ids *)

Lemma ranked_pairs_lookup yt_videos p :
  map (fun rv : nat * S3.video => (S3.v_id rv.2, rv.1)) (S3.ranked yt_videos) !! p
  = (fun v => (S3.v_id v, S p)) <$> S3.yt_sorted yt_videos !! p.
Proof.
  rewrite list_lookup_fmap, ranked_lookup.
  by destruct (S3.yt_sorted yt_videos !! p).
Qed.

(** X11. [yt_rank] has an entry exactly for the ids of the videos, with a
    rank between 1 and N; when an id occurs more than once, the entry is the
    largest of its ranks. *)
Theorem yt_rank_keeps_last_rank (yt_videos : list S3.video) (i : string) :
  (S3.yt_rank yt_videos !! i = None <-> i ∉ map S3.v_id yt_videos)
  /\ (forall r,
        S3.yt_rank yt_videos !! i = Some r <->
        (exists v, (r, v) ∈ S3.ranked yt_videos /\ S3.v_id v = i)
        /\ (forall r' v', (r', v') ∈ S3.ranked yt_videos -> S3.v_id v' = i ->
                          r' <= r))
  /\ (forall r, S3.yt_rank yt_videos !! i = Some r ->
                1 <= r <= length yt_videos).
Proof.
  set (pairs := map (fun rv : nat * S3.video => (S3.v_id rv.2, rv.1))
                    (S3.ranked yt_videos)).
  assert (Hkeys : map fst pairs = map S3.v_id (S3.yt_sorted yt_videos)).
  { unfold pairs. rewrite map_map. cbn.
    rewrite <- (map_map snd S3.v_id). unfold S3.ranked. by rewrite enumerate_snd. }
  assert (Hiff : forall r,
             S3.yt_rank yt_videos !! i = Some r <->
             (exists v, (r, v) ∈ S3.ranked yt_videos /\ S3.v_id v = i)
             /\ (forall r' v', (r', v') ∈ S3.ranked yt_videos -> S3.v_id v' = i ->
                               r' <= r)).
  { intros r. unfold S3.yt_rank. fold pairs. rewrite dict_of_lookup_last. split.
    - intros (l1 & l2 & Hl & Hfresh).
      assert (Hp : pairs !! length l1 = Some (i, r))
        by (rewrite Hl; by apply list_lookup_middle).
      unfold pairs in Hp. rewrite ranked_pairs_lookup in Hp.
      destruct (S3.yt_sorted yt_videos !! length l1) as [v|] eqn:Hv; [|discriminate].
      injection Hp as Hid Hr. split.
      + exists v. split; [|exact Hid].
        apply (list_elem_of_lookup_2 _ (length l1)). by rewrite ranked_lookup, Hv, Hr.
      + intros r' v' [p' Hp']%list_elem_of_lookup Hid'.
        rewrite ranked_lookup in Hp'.
        destruct (S3.yt_sorted yt_videos !! p') as [v''|] eqn:Hv'; [|discriminate].
        injection Hp' as <- ->.
        destruct (decide (p' <= length l1)) as [Hle|Hgt]; [lia|].
        exfalso. apply Hfresh.
        assert (Hl2 : l2 !! (p' - S (length l1)) = Some (i, S p')).
        { assert (Hpp : pairs !! p' = Some (i, S p'))
            by (unfold pairs; rewrite ranked_pairs_lookup, Hv'; cbn; by rewrite Hid').
          rewrite Hl, lookup_app_r in Hpp by lia.
          replace (p' - length l1) with (S (p' - S (length l1))) in Hpp by lia.
          exact Hpp. }
        apply list_elem_of_fmap. exists (i, S p'). split; [reflexivity|].
        by eapply list_elem_of_lookup_2.
    - intros [(v & [p Hp]%list_elem_of_lookup & Hid) Hmax].
      rewrite ranked_lookup in Hp.
      destruct (S3.yt_sorted yt_videos !! p) as [v'|] eqn:Hv; [|discriminate].
      injection Hp as <- ->.
      assert (Hpp : pairs !! p = Some (i, S p))
        by (unfold pairs; rewrite ranked_pairs_lookup, Hv; cbn; by rewrite Hid).
      exists (take p pairs), (drop (S p) pairs). split.
      + by rewrite (take_drop_middle _ _ _ Hpp).
      + intros [[k r'] [Hk [q Hq]%list_elem_of_lookup]]%list_elem_of_fmap.
        cbn in Hk. subst k. rewrite lookup_drop in Hq.
        unfold pairs in Hq. rewrite ranked_pairs_lookup in Hq.
        destruct (S3.yt_sorted yt_videos !! (S p + q)) as [w|] eqn:Hw; [|discriminate].
        injection Hq as Hwid <-.
        assert (Hle : S (S p + q) <= S p); [|lia].
        apply (Hmax _ w); [|exact Hwid].
        apply (list_elem_of_lookup_2 _ (S p + q)). by rewrite ranked_lookup, Hw. }
  split; [|split; [exact Hiff|]].
  - unfold S3.yt_rank. fold pairs. rewrite dict_of_lookup_None, Hkeys.
    assert (Hp : Permutation (map S3.v_id (S3.yt_sorted yt_videos))
                             (map S3.v_id yt_videos))
      by apply Permutation_map, sorted_perm.
    by rewrite Hp.
  - intros r [(v & Hin & _) _]%Hiff.
    apply elem_of_enumerate in Hin as (p & -> & Hp).
    apply lookup_lt_Some in Hp. unfold S3.yt_sorted, sorted_key_desc in Hp.
    rewrite sorted_length in Hp. lia.
Qed.

Lemma yt_rank_keeps_last_rank_witness :
  S3.yt_rank [S3.Video "a" "A" 10; S3.Video "b" "B" 7; S3.Video "a" "A" 5] !! "a"
  = Some 3.
Proof.
  apply (proj1 (proj2 (yt_rank_keeps_last_rank
                         [S3.Video "a" "A" 10; S3.Video "b" "B" 7; S3.Video "a" "A" 5]
                         "a"))).
  split.
  - exists (S3.Video "a" "A" 5). split; [|reflexivity].
    apply (list_elem_of_lookup_2 _ 2). reflexivity.
  - intros r' v' [p Hp]%list_elem_of_lookup _.
    apply lookup_lt_Some in Hp as Hlt. cbn in Hlt.
    destruct p as [|[|[|p]]]; try (cbn in Hlt; lia);
      cbn in Hp; injection Hp as <- _; lia.
Defined.

(** ** The ranks handed to the correlation *)

Lemma yt_rank_range yt_videos i r :
  S3.yt_rank yt_videos !! i = Some r -> 1 <= r <= length yt_videos.
Proof.
  unfold S3.yt_rank. intros (l1 & l2 & Hl & _)%dict_of_lookup_last.
  assert (Hin : (i, r) ∈ map (fun rv : nat * S3.video => (S3.v_id rv.2, rv.1))
                            (S3.ranked yt_videos))
    by (rewrite Hl; set_solver).
  apply list_elem_of_fmap in Hin as ([r' v] & [= _ ->] & Hin). cbn in *.
  apply elem_of_enumerate in Hin as (p & -> & Hp).
  apply lookup_lt_Some in Hp. unfold S3.yt_sorted, sorted_key_desc in Hp.
  rewrite sorted_length in Hp. lia.
Qed.

Lemma matched_ranks_snoc mapping yt_rank sp_tracks t :
  S3.matched_ranks mapping yt_rank (sp_tracks ++ [t])
  = S3.matched_step mapping yt_rank (S3.matched_ranks mapping yt_rank sp_tracks) t.
Proof. unfold S3.matched_ranks. by rewrite foldl_app. Qed.

(** The pairs of ranks, read off the tracks without the loop. *)
Lemma matched_ranks_pairs mapping (yt_rank : gmap string nat) sp_tracks xs ys names :
  S3.matched_ranks mapping yt_rank sp_tracks = (xs, ys, names) ->
  length ys = length xs
  /\ length names = length xs
  /\ sublist xs (map S3.t_position sp_tracks)
  /\ Forall2 (fun x y => exists t yt_id,
                t ∈ sp_tracks /\ S3.t_position t = x
                /\ mapping !! S3.t_id t = Some yt_id
                /\ yt_rank !! yt_id = Some y) xs ys
  /\ (xs = [] <->
      forall t yt_id, t ∈ sp_tracks -> mapping !! S3.t_id t = Some yt_id ->
                      yt_rank !! yt_id = None).
Proof.
  revert xs ys names. induction sp_tracks as [|t l IH] using rev_ind;
    intros xs ys names.
  - intros [= <- <- <-]. split; [reflexivity|]. split; [reflexivity|].
    split; [constructor|]. split; [constructor|]. split; [|done].
    intros _ t yt_id Ht. by apply elem_of_nil in Ht.
  - rewrite matched_ranks_snoc.
    destruct (S3.matched_ranks mapping yt_rank l) as [[xs0 ys0] names0].
    destruct (IH xs0 ys0 names0 eq_refl) as (Hlen & Hnames & Hsub & Hpairs & Hnil).
    assert (Hweak : Forall2 (fun x y => exists t' yt_id,
                       t' ∈ l ++ [t] /\ S3.t_position t' = x
                       /\ mapping !! S3.t_id t' = Some yt_id
                       /\ yt_rank !! yt_id = Some y) xs0 ys0).
    { eapply Forall2_impl; [exact Hpairs|].
      intros x y (t' & yt_id & Ht' & Hrest). exists t', yt_id.
      split; [set_solver|exact Hrest]. }
    assert (Hskip : (forall yt_id, mapping !! S3.t_id t = Some yt_id ->
                                   yt_rank !! yt_id = None) ->
              length ys0 = length xs0
              /\ length names0 = length xs0
              /\ sublist xs0 (map S3.t_position (l ++ [t]))
              /\ Forall2 (fun x y => exists t' yt_id,
                            t' ∈ l ++ [t] /\ S3.t_position t' = x
                            /\ mapping !! S3.t_id t' = Some yt_id
                            /\ yt_rank !! yt_id = Some y) xs0 ys0
              /\ (xs0 = [] <->
                  forall t' yt_id, t' ∈ l ++ [t] ->
                                   mapping !! S3.t_id t' = Some yt_id ->
                                   yt_rank !! yt_id = None)).
    { intros Ht. split; [exact Hlen|]. split; [exact Hnames|]. split.
      { rewrite map_app. by apply sublist_inserts_r. }
      split; [exact Hweak|]. rewrite Hnil. split.
      - intros Hall t' yt_id [Ht'|Ht']%elem_of_app; [by apply Hall|].
        apply list_elem_of_singleton in Ht' as ->. apply Ht.
      - intros Hall t' yt_id Ht'. apply Hall. set_solver. }
    unfold S3.matched_step.
    destruct (mapping !! S3.t_id t) as [yt_id|] eqn:Hm;
      [|intros [= <- <- <-]; apply Hskip; discriminate].
    destruct (yt_rank !! yt_id) as [r|] eqn:Hr;
      [|intros [= <- <- <-]; apply Hskip; by intros ? [= <-]].
    intros [= <- <- <-]. rewrite !length_app, Hlen, Hnames. cbn.
    split; [reflexivity|]. split; [reflexivity|]. split.
    { rewrite map_app. cbn. by apply sublist_app. }
    split.
    { apply Forall2_app; [exact Hweak|]. constructor; [|constructor].
      exists t, yt_id. split; [set_solver|]. by repeat split. }
    split; [by destruct xs0|].
    intros Hall. rewrite (Hall t yt_id) in Hr; [discriminate|set_solver|done].
Qed.



(** ** The search loop: which pages it reads *)

Lemma search_loop_full pages video_ids seen_ids :
  (length video_ids <? A5Collect.TARGET_VIDEO_COUNT)%nat = false ->
  A5Collect.search_loop pages video_ids seen_ids = Some (Ok video_ids).
Proof.
  intros Hfull. destruct pages; [rewrite search_loop_nil|rewrite search_loop_cons];
    by rewrite Hfull.
Qed.

Lemma search_loop_more pages more video_ids seen_ids r :
  A5Collect.search_loop pages video_ids seen_ids = Some r ->
  A5Collect.search_loop (pages ++ more) video_ids seen_ids = Some r.
Proof.
  revert video_ids seen_ids. induction pages as [|p pages IH];
    intros video_ids seen_ids.
  - rewrite search_loop_nil.
    destruct (length video_ids <? A5Collect.TARGET_VIDEO_COUNT)%nat eqn:Hlt;
      [discriminate|].
    intros [= <-]. by apply search_loop_full.
  - cbn [app]. rewrite !search_loop_cons.
    destruct (length video_ids <? A5Collect.TARGET_VIDEO_COUNT)%nat; [|done].
    destruct (A5Collect.add_items _ video_ids seen_ids) as [[v' s']|e]; [|done].
    destruct (A5Collect.falsy _); [done|]. apply IH.
Qed.



Lemma add_items_elems its video_ids seen_ids video_ids' seen_ids' :
  (forall x, x ∈ seen_ids <-> x ∈ video_ids) ->
  A5Collect.add_items its video_ids seen_ids = Ok (video_ids', seen_ids') ->
  (forall x, x ∈ video_ids' <-> x ∈ video_ids \/ Some x ∈ its)
  /\ (forall x, x ∈ seen_ids' <-> x ∈ video_ids')
  /\ Forall is_Some its.
Proof.
  revert video_ids seen_ids.
  induction its as [|[vid|] its IH]; intros video_ids seen_ids Hseen; cbn.
  - intros [= <- <-]. split; [|split; [exact Hseen|constructor]].
    intros x. split; [by left|]. intros [Hx|Hx]; [done|by apply elem_of_nil in Hx].
  - case_bool_decide as Hnew; intros Hadd.
    + apply IH in Hadd as (Hel & Hseen' & Hits).
      * split; [|split; [exact Hseen'|by constructor]].
        intros x. rewrite Hel, elem_of_app, list_elem_of_singleton, elem_of_cons.
        naive_solver.
      * intros x. rewrite elem_of_union, elem_of_singleton, elem_of_app,
          list_elem_of_singleton, Hseen. tauto.
    + apply IH in Hadd as (Hel & Hseen' & Hits); [|exact Hseen].
      split; [|split; [exact Hseen'|by constructor]].
      intros x. rewrite Hel, elem_of_cons.
      assert (Hvid : vid ∈ video_ids).
      { apply Hseen. exact Hnew. }
      naive_solver.
  - discriminate.
Qed.

Lemma add_items_raises its video_ids seen_ids e :
  A5Collect.add_items its video_ids seen_ids = Raise e ->
  e = KeyError /\ None ∈ its.
Proof.
  revert video_ids seen_ids. induction its as [|[vid|] its IH];
    intros video_ids seen_ids; cbn.
  - discriminate.
  - case_bool_decide; intros [-> Hin]%IH; (split; [reflexivity|by right]).
  - intros [= <-]. split; [reflexivity|by left].
Qed.

Lemma from_pages_cons p pages x :
  Spec.from_pages (p :: pages) x <->
  Some x ∈ default [] (A5Collect.items p) \/ Spec.from_pages pages x.
Proof.
  unfold Spec.from_pages. split.
  - intros (r & [->|Hr]%elem_of_cons & Hx); [by left|right; eauto].
  - intros [Hx|(r & Hr & Hx)]; [exists p; split; [by left|done]|].
    exists r. split; [by right|done].
Qed.

(** What the loop has read when it returns. *)
Lemma search_loop_reads pages video_ids seen_ids ids :
  (forall x, x ∈ seen_ids <-> x ∈ video_ids) ->
  A5Collect.search_loop pages video_ids seen_ids = Some (Ok ids) ->
  exists used rest,
    pages = used ++ rest
    /\ (forall x, x ∈ ids <-> x ∈ video_ids \/ Spec.from_pages used x)
    /\ Spec.items_have_ids used
    /\ (A5Collect.TARGET_VIDEO_COUNT <= length ids
        \/ exists init last,
             used = init ++ [last]
             /\ A5Collect.falsy (A5Collect.nextPageToken last) = true).
Proof.
  revert video_ids seen_ids. induction pages as [|p pages IH];
    intros video_ids seen_ids Hseen.
  - rewrite search_loop_nil.
    destruct (length video_ids <? A5Collect.TARGET_VIDEO_COUNT)%nat eqn:Hlt;
      [discriminate|].
    intros [= <-]. exists [], []. split; [reflexivity|]. split.
    { intros x. split; [by left|]. intros [?|(r & Hr & _)]; [done|].
      by apply elem_of_nil in Hr. }
    split; [constructor|]. left. apply Nat.ltb_ge in Hlt. exact Hlt.
  - rewrite search_loop_cons.
    destruct (length video_ids <? A5Collect.TARGET_VIDEO_COUNT)%nat eqn:Hlt.
    + destruct (A5Collect.add_items _ video_ids seen_ids) as [[v' s']|e] eqn:Hadd;
        [|discriminate].
      destruct (add_items_elems _ _ _ _ _ Hseen Hadd) as (Hel & Hseen' & Hits).
      destruct (A5Collect.falsy (A5Collect.nextPageToken p)) eqn:Htok.
      * intros [= <-]. exists [p], pages. split; [reflexivity|]. split.
        { intros x. rewrite Hel, from_pages_cons. split; [intros [?|?]|intros [?|[?|?]]]; auto.
          destruct H as (r & Hr & _). by apply elem_of_nil in Hr. }
        split; [by repeat constructor|]. right. by exists [], p.
      * intros Hloop. destruct (IH v' s' Hseen' Hloop)
          as (used & rest & -> & Hids & Hhave & Hstop).
        exists (p :: used), rest. split; [reflexivity|]. split.
        { intros x. rewrite Hids, Hel, from_pages_cons. tauto. }
        split; [by constructor|].
        destruct Hstop as [Hfull|(init & last & -> & Hlast)]; [by left|].
        right. by exists (p :: init), last.
    + intros [= <-]. exists [], (p :: pages). split; [reflexivity|]. split.
      { intros x. split; [by left|]. intros [?|(r & Hr & _)]; [done|].
        by apply elem_of_nil in Hr. }
      split; [constructor|]. left. apply Nat.ltb_ge in Hlt. exact Hlt.
Qed.

(** X14. The ids [search_video_ids] returns are exactly the video ids of
    the answers it has read, a beginning of the sequence of answers; it
    stops reading because it holds at least [TARGET_VIDEO_COUNT] ids or
    because the last answer read carries no page token. *)
Theorem search_returns_ids_of_pages_read
    (pages : list A5Collect.response) (ids : list string) :
  A5Collect.search_video_ids pages = Some (Ok ids) ->
  exists used rest,
    pages = used ++ rest
    /\ (forall x, x ∈ ids <-> Spec.from_pages used x)
    /\ (A5Collect.TARGET_VIDEO_COUNT <= length ids
        \/ exists init last,
             used = init ++ [last]
             /\ A5Collect.falsy (A5Collect.nextPageToken last) = true).
Proof.
  intros Hrun.
  destruct (search_loop_reads pages [] ∅ ids) as (used & rest & Hp & Hids & _ & Hstop);
    [intros x; set_solver|exact Hrun|].
  exists used, rest. split; [exact Hp|]. split; [|exact Hstop].
  intros x. rewrite Hids. split; [intros [Hx|Hx]|by right]; [|done].
  by apply elem_of_nil in Hx.
Qed.

Lemma search_returns_ids_of_pages_read_witness :
  exists used rest,
    [A5Collect.Response (Some [Some "a"; Some "b"; Some "a"]) None;
     A5Collect.Response (Some [Some "z"]) None] = used ++ rest
    /\ (forall x, x ∈ ["a"; "b"] <-> Spec.from_pages used x).
Proof.
  destruct (search_returns_ids_of_pages_read
              [A5Collect.Response (Some [Some "a"; Some "b"; Some "a"]) None;
               A5Collect.Response (Some [Some "z"]) None] ["a"; "b"] eq_refl)
    as (used & rest & Hp & Hids & _).
  by exists used, rest.
Defined.

Lemma search_loop_raises pages video_ids seen_ids e :
  A5Collect.search_loop pages video_ids seen_ids = Some (Raise e) ->
  e = KeyError /\ exists p, p ∈ pages /\ None ∈ default [] (A5Collect.items p).
Proof.
  revert video_ids seen_ids. induction pages as [|p pages IH];
    intros video_ids seen_ids.
  - rewrite search_loop_nil. by destruct (_ <? _)%nat.
  - rewrite search_loop_cons.
    destruct (length video_ids <? A5Collect.TARGET_VIDEO_COUNT)%nat; [|discriminate].
    destruct (A5Collect.add_items _ video_ids seen_ids) as [[v' s']|e'] eqn:Hadd.
    + destruct (A5Collect.falsy _); [discriminate|].
      intros (-> & q & Hq & Hnone)%IH. split; [reflexivity|].
      exists q. split; [by right|done].
    + intros [= <-]. apply add_items_raises in Hadd as [-> Hnone].
      split; [reflexivity|]. exists p. split; [by left|done].
Qed.



(** ** The batches of the detail requests *)

Lemma batches_concat_take (video_ids : list string) n :
  concat (map (fun j => take 50 (drop (50 * j) video_ids)) (seq 0 n))
  = take (50 * n) video_ids.
Proof.
  induction n as [|n IH]; [by rewrite Nat.mul_0_r, take_0|].
  rewrite seq_S, map_app, concat_app, IH. cbn [map concat Nat.add].
  rewrite app_nil_r, take_take_drop. f_equal. lia.
Qed.

Lemma batch_count_bounds (len : nat) :
  len <= 50 * ((len + 49) / 50) /\ 50 * ((len + 49) / 50) < len + 50.
Proof.
  pose proof (Nat.div_mod_eq (len + 49) 50) as Heq.
  pose proof (Nat.mod_upper_bound (len + 49) 50 ltac:(lia)) as Hlt.
  remember ((len + 49) / 50) as q. remember ((len + 49) mod 50) as r.
  lia.
Qed.

Lemma batches_lookup (video_ids : list string) j b :
  A5Fetch.batches video_ids !! j = Some b ->
  j < (length video_ids + 49) / 50 /\ b = take 50 (drop (50 * j) video_ids).
Proof.
  unfold A5Fetch.batches. rewrite list_lookup_fmap.
  destruct (seq 0 _ !! j) as [i|] eqn:Hi; [|discriminate].
  apply lookup_seq in Hi as [-> Hj]. cbn. intros [= <-]. done.
Qed.

(** X16. The batches of [fetch_video_details] cut the list of ids into
    consecutive slices: joined in order they give the list back, there are
    [ceil(len / 50)] of them (none for an empty list), every one holds
    between 1 and 50 ids, and every one but the last holds exactly 50. *)
Theorem batches_partition (video_ids : list string) :
  concat (A5Fetch.batches video_ids) = video_ids
  /\ length (A5Fetch.batches video_ids) = (length video_ids + 49) / 50
  /\ Forall (fun b => 1 <= length b <= 50) (A5Fetch.batches video_ids)
  /\ (forall j b, A5Fetch.batches video_ids !! j = Some b ->
                  S j < length (A5Fetch.batches video_ids) -> length b = 50).
Proof.
  pose proof (batch_count_bounds (length video_ids)) as [Hlo Hhi].
  assert (Hlen : length (A5Fetch.batches video_ids) = (length video_ids + 49) / 50).
  { unfold A5Fetch.batches. by rewrite length_map, length_seq. }
  split; [|split; [exact Hlen|split]].
  - unfold A5Fetch.batches. rewrite batches_concat_take. by apply take_ge.
  - apply Forall_lookup. intros j b [Hj ->]%batches_lookup.
    rewrite length_take, length_drop.
    remember ((length video_ids + 49) / 50) as q. lia.
  - intros j b [Hj ->]%batches_lookup. rewrite Hlen.
    rewrite length_take, length_drop.
    remember ((length video_ids + 49) / 50) as q. lia.
Qed.

Lemma batches_partition_witness :
  length (take 50 (replicate 51 "a")) = 50.
Proof.
  apply (proj2 (proj2 (proj2 (batches_partition (replicate 51 "a")))) 0).
  - reflexivity.
  - vm_compute. lia.
Defined.

(** ** The records of the collector *)

Lemma mapM_Ok_elem {A B} (f : A -> result B) l bs b :
  mapM f l = Ok bs -> b ∈ bs -> exists a, a ∈ l /\ f a = Ok b.
Proof.
  intros Hl%mapM_Ok_Forall2 Hb.
  induction Hl as [|a b' l bs Hab _ IH]; [by apply elem_of_nil in Hb|].
  apply elem_of_cons in Hb as [->|Hb].
  - exists a. split; [by left|done].
  - destruct (IH Hb) as (a' & Ha' & Hfa'). exists a'. split; [by right|done].
Qed.

Lemma elem_of_concat {A} (x : A) (ls : list (list A)) :
  x ∈ concat ls -> exists l, x ∈ l /\ l ∈ ls.
Proof.
  induction ls as [|l ls IH]; cbn; [by intros ?%elem_of_nil|].
  intros [Hx|Hx]%elem_of_app.
  - exists l. split; [done|by left].
  - destruct (IH Hx) as (l' & Hl' & Hin). exists l'. split; [done|by right].
Qed.

Lemma optional_count_shape stats k x :
  A5Fetch.optional_count stats k = Ok x -> Spec.int_or_null x.
Proof.
  unfold A5Fetch.optional_count. destruct (is_dict_with stats k).
  - intros (y & _ & (n & _ & [= <-])%bind_Ok)%bind_Ok. right. eauto.
  - intros [= <-]. by left.
Qed.

Lemma simplify_shape item v :
  A5Fetch.simplify item = Ok v -> Spec.record_shape v.
Proof.
  unfold A5Fetch.simplify.
  intros (snippet & _ & (stats & _ & (id & _ & (title & _ & (channelId & _ &
    (channelTitle & _ & (publishedAt & _ & (vc & _ & (viewCount & _ &
    (likeCount & Hl & (commentCount & Hc & [= <-])%bind_Ok)%bind_Ok)%bind_Ok)
    %bind_Ok)%bind_Ok)%bind_Ok)%bind_Ok)%bind_Ok)%bind_Ok)%bind_Ok)%bind_Ok.
  exists id, title, channelId, channelTitle, publishedAt, viewCount,
    likeCount, commentCount.
  split; [reflexivity|]. split; by eapply optional_count_shape.
Qed.

Lemma fetch_video_details_simplified videos_list video_ids videos :
  A5Fetch.fetch_video_details videos_list video_ids = Ok videos ->
  Forall (fun v => exists item, A5Fetch.simplify item = Ok v) videos.
Proof.
  unfold A5Fetch.fetch_video_details.
  intros (groups & Hgroups & [= <-])%bind_Ok.
  apply Forall_forall. intros v (g & Hv & Hg)%elem_of_concat.
  destruct (mapM_Ok_elem _ _ _ _ Hgroups Hg) as (batch & _ & Hbatch).
  unfold A5Fetch.fetch_batch in Hbatch.
  apply bind_Ok in Hbatch as (items & _ & (its & _ & Hits)%bind_Ok).
  destruct (mapM_Ok_elem _ _ _ _ Hits Hv) as (item & _ & Hitem). eauto.
Qed.

(** X17. Every record [fetch_video_details] returns has the same eight
    keys in the same order; its [viewCount] is an integer, its [likeCount]
    and [commentCount] are integers or [null]. *)
Theorem fetch_video_details_schema
    (videos_list : string -> json) (video_ids : list string) (videos : list json) :
  A5Fetch.fetch_video_details videos_list video_ids = Ok videos ->
  Forall Spec.record_shape videos.
Proof.
  intros Hv%fetch_video_details_simplified.
  eapply Forall_impl; [exact Hv|]. intros v [item Hitem].
  by eapply simplify_shape.
Qed.

Lemma fetch_video_details_schema_witness :
  Forall Spec.record_shape
    [JDict [("id", JStr "a"); ("title", JStr "T"); ("channelId", JNull);
            ("channelTitle", JNull); ("publishedAt", JNull);
            ("viewCount", JInt 7); ("likeCount", JNull);
            ("commentCount", JInt 0)]].
Proof.
  apply (fetch_video_details_schema
           (fun _ => JDict [("items",
              JList [JDict [("id", JStr "a");
                            ("snippet", JDict [("title", JStr "T")]);
                            ("statistics", JDict [("viewCount", JStr "7");
                                                  ("commentCount", JStr "0")])]])])
           ["a"]).
  reflexivity.
Defined.

(** ** From the collector to the analyzer *)

Lemma view_counts_of_records videos :
  Forall (fun v => exists item, A5Fetch.simplify item = Ok v) videos ->
  exists cs,
    A5Analyze.view_counts_of videos = Ok (map JInt cs)
    /\ Forall2 (fun v c => subscript v "viewCount" = Ok (JInt c)) videos cs.
Proof.
  induction 1 as [|v videos [item Hv] _ (cs & IH & Hcs)].
  - exists []. split; [reflexivity|constructor].
  - apply simplify_shape in Hv
      as (id & title & cid & ct & pa & vc & lc & cc & -> & _ & _).
    exists (vc :: cs). split; [|by constructor].
    cbn. cbn in IH. rewrite IH. reflexivity.
Qed.



(** ** Which exceptions the loaders raise *)

Lemma bind_Raise {A B} (r : result A) (k : A -> result B) e :
  (r ≫= k) = Raise e -> r = Raise e \/ exists a, r = Ok a /\ k a = Raise e.
Proof. destruct r as [a|e']; cbn; [eauto|]. intros [= <-]. by left. Qed.

Lemma mapM_raise_elem {A B} (f : A -> result B) l e :
  mapM f l = Raise e -> exists x, x ∈ l /\ f x = Raise e.
Proof.
  induction l as [|a l IH]; cbn; [discriminate|].
  intros [Ha|(b & Hb & [Hl|(bs & _ & [=])]%bind_Raise)]%bind_Raise.
  - exists a. split; [by left|done].
  - destruct (IH Hl) as (x & Hx & Hfx). exists x. split; [by right|done].
Qed.

Lemma view_counts_of_raises vs e :
  A5Analyze.view_counts_of vs = Raise e <->
  e = AttributeError /\ Exists (fun v => Spec.is_dict v = false) vs.
Proof.
  induction vs as [|v vs IH].
  - cbn. split; [discriminate|]. intros [_ H]. inversion H.
  - rewrite Exists_cons. destruct v as [| | | | |d].
    1-5: cbn; split; [intros [= <-]; eauto|by intros [-> _]].
    assert (Hrest : A5Analyze.view_counts_of (JDict d :: vs) = Raise e
                    <-> A5Analyze.view_counts_of vs = Raise e).
    { cbn. destruct (assoc "viewCount" d) as [x|] eqn:Hx; cbn; [|reflexivity].
      destruct x; try reflexivity; rewrite ?Hx; cbn;
        destruct (A5Analyze.view_counts_of vs); cbn; done. }
    rewrite Hrest, IH. cbn. naive_solver.
Qed.

Lemma iterate_raises x e :
  A5Analyze.iterate x = Raise e -> e = TypeError.
Proof. destruct x; cbn; congruence. Qed.



(** ** [load_youtube_from_zip]: the exceptions of the rows *)

Lemma get_raises_attr x k dflt e :
  get x k dflt = Raise e -> e = AttributeError.
Proof. destruct x; cbn; congruence. Qed.

Lemma py_int_raises_type_or_value x e :
  py_int x = Raise e -> e = TypeError \/ e = ValueError.
Proof.
  destruct x as [| | |s| |]; cbn; try (intros [= <-]; by left); try discriminate.
  destruct (int_of_str s); [discriminate|]. intros [= <-]. by right.
Qed.

Lemma subscript_is_dict_with x k :
  is_dict_with x k = true -> exists v, subscript x k = Ok v.
Proof.
  destruct x as [| | | | |d]; cbn; try discriminate.
  intros [v Hv]%bool_decide_eq_true. rewrite Hv. eauto.
Qed.

Lemma video_id_of_raises item raw_id e :
  S1.video_id_of item raw_id = Raise e -> e = TypeError /\ Spec.is_dict item = false.
Proof.
  unfold S1.video_id_of.
  destruct (is_dict_with raw_id "videoId") eqn:Hraw.
  { destruct (subscript_is_dict_with _ _ Hraw) as [v ->]. discriminate. }
  destruct item as [| | | | |d]; try (intros [= <-]; done).
  destruct (assoc "resourceId" d) as [r|]; [|discriminate].
  destruct (is_dict_with r "videoId") eqn:Hr; [|discriminate].
  destruct (subscript_is_dict_with _ _ Hr) as [v ->]. discriminate.
Qed.

Lemma row_of_item_raises date item e :
  S1.row_of_item date item = Raise e ->
  e = AttributeError \/ e = TypeError \/ e = ValueError.
Proof.
  unfold S1.row_of_item.
  intros [H|(raw_id & _ & H)]%bind_Raise; [apply get_raises_attr in H; auto|].
  apply bind_Raise in H as [H|(video_id & _ & H)];
    [apply video_id_of_raises in H as [-> _]; auto|].
  apply bind_Raise in H as [H|(snippet & _ & H)]; [apply get_raises_attr in H; auto|].
  apply bind_Raise in H as [H|(title & _ & H)]; [apply get_raises_attr in H; auto|].
  apply bind_Raise in H as [H|(stats & _ & H)]; [apply get_raises_attr in H; auto|].
  apply bind_Raise in H as [H|(lk & _ & H)]; [apply get_raises_attr in H; auto|].
  apply bind_Raise in H as [H|(likes & _ & H)];
    [apply py_int_raises_type_or_value in H; tauto|].
  apply bind_Raise in H as [H|(dl & _ & H)]; [apply get_raises_attr in H; auto|].
  apply bind_Raise in H as [H|(dislikes & _ & H)];
    [apply py_int_raises_type_or_value in H; tauto|].
  discriminate.
Qed.

Lemma rows_of_member_raises z name e :
  name ∈ namelist z ->
  S1.rows_of_member z name = Raise e ->
  e = AttributeError \/ e = TypeError \/ e = ValueError.
Proof.
  intros Hin. unfold S1.rows_of_member.
  destruct (zread_Some z name Hin) as (doc & -> & _). cbn.
  destruct doc as [| | | |items|]; try (intros [= <-]; auto).
  intros (item & _ & H)%mapM_raise_elem. by eapply row_of_item_raises.
Qed.

(** X20. [load_youtube_from_zip] raises [FileNotFoundError] only when
    the path does not exist or the archive holds no JSON member, never for
    what a member contains; and it never raises [KeyError]: every key it
    subscripts it has tested before, and the members it reads are members
    of the archive. *)
Theorem load_youtube_from_zip_exceptions (zip_path : option (archive json)) :
  (S1.load_youtube_from_zip zip_path = Raise FileNotFoundError
   <-> zip_path = None
       \/ exists z, zip_path = Some z
                    /\ List.filter S1.is_json (namelist z) = [])
  /\ S1.load_youtube_from_zip zip_path <> Raise KeyError.
Proof.
  destruct zip_path as [z|]; [|split; [split; [by left|reflexivity]|discriminate]].
  assert (Hrows : forall e,
    mapM (S1.rows_of_member z) (List.filter S1.is_json (namelist z)) = Raise e ->
    e = AttributeError \/ e = TypeError \/ e = ValueError).
  { intros e (name & [Hin _]%elem_of_filter_names & H)%mapM_raise_elem.
    by eapply rows_of_member_raises. }
  cbn. destruct (List.filter S1.is_json (namelist z)) as [|n l] eqn:Hfiles.
  - split; [|discriminate]. split; [|reflexivity].
    intros _. right. by exists z.
  - destruct (mapM (S1.rows_of_member z) (n :: l)) as [rows|e] eqn:Hm.
    + cbn. split; [|discriminate]. split; [discriminate|].
      intros [[=]|(z' & [= <-] & Hnil)]. congruence.
    + cbn. destruct (Hrows e eq_refl) as [-> | [-> | ->]].
      all: split; [|discriminate]; split; [discriminate|].
      all: intros [[=]|(z' & [= <-] & Hnil)]; congruence.
Qed.

Lemma load_youtube_from_zip_exceptions_witness :
  S1.load_youtube_from_zip (Some [("readme.txt", JNull)])
  = Raise FileNotFoundError.
Proof.
  apply (proj1 (load_youtube_from_zip_exceptions (Some [("readme.txt", JNull)]))).
  right. exists [("readme.txt", JNull)]. split; reflexivity.
Defined.

(** ** The ranked series of the popularity plots *)

(** X21. The series [plot_linear_distribution] and
    [plot_rank_popularity_loglog] draw: [sorted_views] holds the view counts
    given, each as often as it was given, in descending order, and [ranks]
    numbers them [1 .. n]. *)
Theorem sorted_views_descending (view_counts : list Z) :
  Permutation (A5Analyze.sorted_views view_counts) view_counts
  /\ StronglySorted Z.ge (A5Analyze.sorted_views view_counts)
  /\ A5Analyze.ranks view_counts = seq 1 (length view_counts).
Proof.
  unfold A5Analyze.ranks, A5Analyze.sorted_views.
  assert (Hperm : Permutation (rev (sorted Z.ltb view_counts)) view_counts).
  { rewrite <- Permutation_rev. apply sorted_perm. }
  split; [exact Hperm|]. split; [|by rewrite (Permutation_length Hperm)].
  assert (Hs : StronglySorted (after Z.ltb) (sorted Z.ltb view_counts)).
  { apply sorted_sorted.
    - intros a b Hab. apply Z.ltb_lt in Hab. apply Z.ltb_ge. lia.
    - unfold after. intros a b c Hab Hbc.
      apply Z.ltb_ge in Hab, Hbc. apply Z.ltb_ge. lia. }
  clear Hperm. induction Hs as [|x l Hl IH Hx]; cbn; [constructor|].
  apply StronglySorted_app_2; [|exact IH|repeat constructor].
  intros a b Ha Hb. rewrite list_elem_of_singleton in Hb. subst b.
  rewrite list_elem_of_In, <- in_rev, <- list_elem_of_In in Ha.
  rewrite Forall_forall in Hx. specialize (Hx a Ha). unfold after in Hx.
  apply Z.ltb_ge in Hx. lia.
Qed.
